(** * DXLink candle streamer: merge core, snapshot gate and periodic vwap

    A shallow embedding of
    [demo_async_tkinter_dxlink_streamer_historic_candles.py]: the event flag
    masks, the decoder [candle_to_dataframe], the indicator [vwap], and the
    polling loop of [Window.get_candle_async] with its two locals [df] (the
    series store) and [update_graph] (the snapshot gate).

    Modelling choices.
    - A pandas [DataFrame] is the list of its rows, in iteration order.
    - Python [int] is [Z]; [&] on Python integers is [Z.land].
    - Python [float] and numpy [float64] are IEEE 754 binary64, taken from
      the Standard Library's [SpecFloat] at precision 53 and exponent bound
      1024.  numpy divides by zero without raising (its default error state
      only warns).
    - [print] appends to [stdout]; [canvas.draw()] appends to [drawn].
    - [asyncio.wait_for(..., timeout=2.0)] either delivers a candle or raises
      the [TimeoutError] the loop catches (Python 3.11 or later); the
      outcome is an input of the loop.
    - Plotting, the Tk widgets and the heartbeat task [animation_async] are
      left out; they do not touch [df], [update_graph] or [run], except that
      the Quit button, served from any [self.update()], clears [run]. *)

From Stdlib Require Import ZArith Lia.
From Stdlib Require Import Floats.SpecFloat.
From stdpp Require Import gmap strings list sorting.

Local Open Scope Z_scope.

(** ** Event flags *)

Definition TX_PENDING : Z := 0x1.
Definition REMOVE_EVENT : Z := 0x2.
Definition SNAPSHOT_BEGIN : Z := 0x4.
Definition SNAPSHOT_END : Z := 0x8.
Definition SNAPSHOT_SNIP : Z := 0x10.
Definition SNAPSHOT_MODE : Z := 0x40.

(** [(flags & mask) != 0] *)
Definition flag_set (flags mask : Z) : bool := negb (Z.land flags mask =? 0).

(** ** Floating point (binary64) *)

Abbreviation float := spec_float.

Definition fadd : float -> float -> float := SFadd 53 1024.
Definition fmul : float -> float -> float := SFmul 53 1024.
Definition fdiv : float -> float -> float := SFdiv 53 1024.

(** [float(n)] for a Python integer [n]. *)
Definition float_of_Z (n : Z) : float := binary_normalize 53 1024 n 0 false.

Definition is_nan (x : float) : bool :=
  match x with S754_nan => true | _ => false end.
Definition is_zero (x : float) : bool :=
  match x with S754_zero _ => true | _ => false end.
Definition is_infinity (x : float) : bool :=
  match x with S754_infinity _ => true | _ => false end.

(** A volume the feed can report: not a negative number.  A finite one is
    a double in normal form ([valid_binary]). *)
Definition not_negative (x : float) : bool :=
  match x with
  | S754_finite s _ _ => negb s && valid_binary 53 1024 x
  | S754_infinity s => negb s
  | S754_zero _ | S754_nan => true
  end.

(** What [not_negative] gives an addition to work with: no minus sign, and
    no exponent below the smallest one of binary64. *)
Definition nonneg_class (x : float) : Prop :=
  match x with
  | S754_finite s _ e => s = false /\ emin 53 1024 <= e
  | S754_infinity s => s = false
  | S754_zero _ | S754_nan => True
  end.

(** ** Raw field values

    A field of the upstream [Candle] object as the decoder sees it:
    [None], an object on which [float(...)] succeeds (with its result),
    or any other object, on which [float(...)] raises. *)
Inductive py_value : Type :=
  | PyNone
  | PyNumber (x : float)
  | PyOther.

(** [float(v)]; [None] stands for the raised exception. *)
Definition py_float (v : py_value) : option float :=
  match v with
  | PyNumber x => Some x
  | PyNone | PyOther => None
  end.

(** [float(v) if v is not None else None] *)
Definition py_float_or_none (v : py_value) : option (option float) :=
  match v with
  | PyNone => Some None
  | _ => Some <$> py_float v
  end.

(** ** The upstream event and the decoded row *)

Module Candle.
Record t : Type := mk {
  eventSymbol : string;
  eventTime : Z;
  eventFlags : Z;
  index : Z;
  time : Z;
  sequence : Z;
  count : Z;
  open : py_value;
  high : py_value;
  low : py_value;
  close : py_value;
  volume : py_value;
  vwap : py_value;
  bidVolume : py_value;
  askVolume : py_value;
  impVolatility : py_value;
  openInterest : py_value
}.
End Candle.

Module DataRow.
Record t : Type := mk {
  eventSymbol : string;
  eventTime : Z;
  eventFlags : Z;
  index : Z;
  time : Z;
  sequence : Z;
  count : Z;
  open : float;
  high : float;
  low : float;
  close : float;
  volume : float;
  vwap : float;
  bidVolume : option float;
  askVolume : option float;
  impVolatility : option float;
  openInterest : py_value
}.

Definition with_eventFlags (f : Z) (r : t) : t :=
  mk (eventSymbol r) (eventTime r) f (index r) (time r) (sequence r)
     (count r) (open r) (high r) (low r) (close r) (volume r) (vwap r)
     (bidVolume r) (askVolume r) (impVolatility r) (openInterest r).
End DataRow.

Definition with_candle_flags (f : Z) (c : Candle.t) : Candle.t :=
  Candle.mk (Candle.eventSymbol c) (Candle.eventTime c) f (Candle.index c)
    (Candle.time c) (Candle.sequence c) (Candle.count c) (Candle.open c)
    (Candle.high c) (Candle.low c) (Candle.close c) (Candle.volume c)
    (Candle.vwap c) (Candle.bidVolume c) (Candle.askVolume c)
    (Candle.impVolatility c) (Candle.openInterest c).

Abbreviation DataFrame := (list DataRow.t).

(** [df.empty] *)
Definition empty (df : DataFrame) : bool :=
  match df with [] => true | _ :: _ => false end.

(** What [print] writes. *)
Inductive output : Type :=
  | PrintStr (s : string)
  | PrintCandle (c : Candle.t).

(** [check_candle_event_flags]: one line per active flag. *)
Definition check_candle_event_flags (c : Candle.t) : list output :=
  let f := Candle.eventFlags c in
  (if flag_set f TX_PENDING then [PrintStr "TX_PENDING"] else []) ++
  (if flag_set f REMOVE_EVENT then [PrintStr "REMOVE_EVENT"] else []) ++
  (if flag_set f SNAPSHOT_BEGIN then [PrintStr "SNAPSHOT_BEGIN"] else []) ++
  (if flag_set f SNAPSHOT_END then [PrintStr "SNAPSHOT_END"] else []) ++
  (if flag_set f SNAPSHOT_SNIP then [PrintStr "SNAPSHOT_SNIP"] else []) ++
  (if flag_set f SNAPSHOT_MODE then [PrintStr "SNAPSHOT_MODE"] else []).

(** ** Series store operations (pandas) *)

(** [df.drop_duplicates(subset=['time'], keep='last')]: a row stays iff no
    later row has the same [time]. *)
Fixpoint drop_duplicates (df : DataFrame) : DataFrame :=
  match df with
  | [] => []
  | r :: rest =>
      if existsb (fun x => DataRow.time x =? DataRow.time r) rest
      then drop_duplicates rest
      else r :: drop_duplicates rest
  end.

Fixpoint insert_sorted (r : DataRow.t) (df : DataFrame) : DataFrame :=
  match df with
  | [] => [r]
  | x :: rest =>
      if DataRow.time r <=? DataRow.time x then r :: df
      else x :: insert_sorted r rest
  end.

(** [df.sort_values(by=['time'])], ascending.  The loop only sorts a frame
    whose [time] values are pairwise distinct (it has just been through
    [drop_duplicates]), so the result does not depend on the sorting
    algorithm pandas picks; see [sort_values_unique]. *)
Fixpoint sort_values (df : DataFrame) : DataFrame :=
  match df with
  | [] => []
  | r :: rest => insert_sorted r (sort_values rest)
  end.

(** Lines 245-247: concat, drop duplicates keeping the last, sort. *)
Definition merge (df df_new : DataFrame) : DataFrame :=
  sort_values (drop_duplicates (df ++ df_new)).

(** ** Indicator *)

Fixpoint cumsum_from (acc : float) (l : list float) : list float :=
  match l with
  | [] => []
  | x :: rest => let acc' := fadd acc x in acc' :: cumsum_from acc' rest
  end.

(** [numpy.cumsum]: running sum, left to right. *)
Definition cumsum (l : list float) : list float :=
  match l with
  | [] => []
  | x :: rest => x :: cumsum_from x rest
  end.

(** [df.assign(periodic_vwap=(p * q).cumsum() / q.cumsum())]: each row
    together with its new column. *)
Definition vwap (df : DataFrame) : list (DataRow.t * float) :=
  let q := DataRow.volume <$> df in
  let p := DataRow.vwap <$> df in
  zip df (zip_with fdiv (cumsum (zip_with fmul p q)) (cumsum q)).

(** ** Window and loop state *)

(** [self.disp_df]: the sample frame built in [__init__], or a published
    series with its [periodic_vwap] column. *)
Inductive frame : Type :=
  | SampleFrame
  | Series (rows : list (DataRow.t * float)).

Record state : Type := mkState {
  run : bool;                               (* self.run *)
  df : DataFrame;                           (* local df *)
  update_graph : bool;                      (* local update_graph *)
  disp_df : frame;                          (* self.disp_df *)
  drawn : list frame;                       (* frames given to canvas.draw() *)
  label_quote : option (string * option float); (* symbol, last close *)
  label_vwap : option (option float);       (* last periodic_vwap *)
  stdout : list output;
  streamer_closed : bool
}.

(** State on entry of the [while] loop of [get_candle_async]. *)
Definition init : state :=
  mkState true [] false SampleFrame [SampleFrame] None None [] false.

(** [Window.quit] *)
Definition quit (s : state) : state :=
  mkState false (df s) (update_graph s) (disp_df s) (drawn s)
    (label_quote s) (label_vwap s) (stdout s) (streamer_closed s).

(** [await streamer.close()] after the loop. *)
Definition close_streamer (s : state) : state :=
  mkState (run s) (df s) (update_graph s) (disp_df s) (drawn s)
    (label_quote s) (label_vwap s) (stdout s) true.

(** Lines 250-282: copy the store, add the indicator, redraw, set labels. *)
Definition publish (c : Candle.t) (s : state) : state :=
  let disp := vwap (df s) in
  mkState (run s) (df s) (update_graph s) (Series disp)
    (drawn s ++ [Series disp])
    (Some (Candle.eventSymbol c,
           (fun x => DataRow.close (fst x)) <$> last disp))
    (Some (snd <$> last disp))
    (stdout s) (streamer_closed s).

(** Outcome of one bounded wait on the streamer. *)
Inductive poll : Type :=
  | Received (c : Candle.t)
  | TimedOut.

(** What the scheduler runs next, as far as the poller is concerned: the
    poller's next loop iteration with the outcome of its wait, or the Quit
    button's callback.  A press of the button while the poller is waiting is
    [Poll p] followed by [Quit]: the body never reads [run]. *)
Inductive input : Type :=
  | Poll (p : poll)
  | Quit.

(** ** Views of the store used to state properties *)

Definition time_lt (x y : DataRow.t) : Prop := DataRow.time x < DataRow.time y.
Definition time_le (x y : DataRow.t) : Prop := DataRow.time x <= DataRow.time y.

(** Iteration order strictly ascending by [time]. *)
Definition ascending (df : DataFrame) : Prop := StronglySorted time_lt df.

(** The rows stored under the key [t], in iteration order. *)
Definition rows_at (t : Z) (df : DataFrame) : DataFrame :=
  filter (fun x => DataRow.time x = t) df.

(** The store read as a finite map from [time] to row. *)
Definition store_map (df : DataFrame) : gmap Z DataRow.t :=
  list_to_map ((fun r => (DataRow.time r, r)) <$> df).

(** [sum(f j for j in 0..=i)], added up left to right from [f 0]. *)
Fixpoint sum_upto (f : nat -> float) (i : nat) : float :=
  match i with
  | O => f O
  | S j => fadd (sum_upto f j) (f (S j))
  end.

Definition volume_at (df : DataFrame) (j : nat) : float :=
  default S754_nan (DataRow.volume <$> df !! j).
Definition vwap_at (df : DataFrame) (j : nat) : float :=
  default S754_nan (DataRow.vwap <$> df !! j).

(** The three diagnostic bits together. *)
Definition diagnostic_bits : Z := TX_PENDING + SNAPSHOT_SNIP + SNAPSHOT_MODE.

(** The two flag words agree outside TX_PENDING, SNAPSHOT_SNIP and
    SNAPSHOT_MODE (bits 0, 4 and 6). *)
Definition same_but_diagnostic (f f' : Z) : Prop :=
  forall n : Z, n <> 0 -> n <> 4 -> n <> 6 -> Z.testbit f n = Z.testbit f' n.

(** ** The heartbeat and the configuration file *)

(** The six flag masks together: the bits [check_candle_event_flags]
    looks at. *)
Definition known_flags : Z :=
  TX_PENDING + REMOVE_EVENT + SNAPSHOT_BEGIN + SNAPSHOT_END +
  SNAPSHOT_SNIP + SNAPSHOT_MODE.

(** [self.animation] on start: a Python string is the list of its code
    points, here one LIGHT SHADE and five MEDIUM SHADE. *)
Definition animation0 : list Z :=
  [0x2591; 0x2592; 0x2592; 0x2592; 0x2592; 0x2592].

(** What [animation_async] works on: the text of [self.label] and
    [self.animation]. *)
Record ticker : Type := mkTicker {
  label : list Z;
  animation : list Z
}.

(** After [Window.__init__]. *)
Definition ticker0 : ticker := mkTicker [] animation0.

(** Lines 210-211, one pass through the body of [animation_async]: the
    label takes the animation, then
    [self.animation = self.animation[1:] + self.animation[0]].  [None] is
    the [IndexError] of [self.animation[0]] on the empty string. *)
Definition beat (t : ticker) : option ticker :=
  match animation t with
  | [] => None
  | c :: rest => Some (mkTicker (animation t) (rest ++ [c]))
  end.

(** [k] passes in a row. *)
Fixpoint beats (k : nat) (t : ticker) : option ticker :=
  match k with
  | O => Some t
  | S k' => t' ← beat t; beats k' t'
  end.

(** A document as [json.load] returns it; [JNull] is Python's [None]. *)
#[warnings="-register-all"]
Inductive json : Type :=
  | JNull
  | JBool (b : bool)
  | JInt (n : Z)
  | JFloat (x : float)
  | JString (s : string)
  | JList (l : list json)
  | JDict (m : gmap string json).

(** What [open] and [json.load] make of [tasty_tools_config.json]:
    [FileNotFoundError], [json.JSONDecodeError], any other exception
    ([PermissionError], [IsADirectoryError], [UnicodeDecodeError], ...), or
    a document. *)
Inductive config_file : Type :=
  | Missing
  | Malformed
  | Unreadable
  | Parsed (v : json).

(** How [read_config] ends: it returns a pair, or an exception escapes:
    the [AttributeError] of [config.get] on a document that is not a dict,
    or the exception of [open] or [json.load] that no [except] clause
    names. *)
Inductive config_result : Type :=
  | Returned (username password : json)
  | AttributeError
  | OtherError.

(** [config.get(key)] on a dict. *)
Definition dict_get (m : gmap string json) (key : string) : json :=
  default JNull (m !! key).

(** [read_config], with what it prints. *)
Definition read_config (f : config_file) : config_result * list output :=
  match f with
  | Parsed (JDict m) =>
      (Returned (dict_get m "username") (dict_get m "password"), [])
  | Parsed _ => (AttributeError, [])
  | Unreadable => (OtherError, [])
  | Missing => (Returned JNull JNull, [PrintStr "Config file not found."])
  | Malformed =>
      (Returned JNull JNull,
       [PrintStr "Error decoding JSON from the config file."])
  end.

(** The polls the loop handles in a schedule: those before the first
    press of Quit. *)
Fixpoint handled (ins : list input) : list poll :=
  match ins with
  | Poll p :: rest => p :: handled rest
  | _ => []
  end.

(** What the scheduler runs next in [display]: a pass of the heartbeat, or
    something for the poller or the Quit button. *)
Inductive event : Type :=
  | Beat
  | Core (i : input).

Definition core_inputs (evs : list event) : list input :=
  omap (fun e => match e with Core i => Some i | Beat => None end) evs.

(** The passes of the heartbeat that find [run] set: the [Beat]s before the
    first press of Quit. *)
Fixpoint live_beats (evs : list event) : nat :=
  match evs with
  | [] => O
  | Beat :: rest => S (live_beats rest)
  | Core Quit :: _ => O
  | Core (Poll _) :: rest => live_beats rest
  end.

Section Streamer.

(** [datetime.fromtimestamp(ms / 1000)] in the local time zone, as an integer
    instant; [None] when it raises. *)
Variable fromtimestamp : Z -> option Z.

(** The [try] block of [candle_to_dataframe]; [None] when anything raises. *)
Definition data_row (c : Candle.t) : option DataRow.t :=
  t ← fromtimestamp (Candle.time c);
  o ← py_float (Candle.open c);
  h ← py_float (Candle.high c);
  l ← py_float (Candle.low c);
  cl ← py_float (Candle.close c);
  v ← py_float (Candle.volume c);
  w ← py_float (Candle.vwap c);
  bv ← py_float_or_none (Candle.bidVolume c);
  av ← py_float_or_none (Candle.askVolume c);
  iv ← py_float_or_none (Candle.impVolatility c);
  Some (DataRow.mk (Candle.eventSymbol c) (Candle.eventTime c)
          (Candle.eventFlags c) (Candle.index c) t (Candle.sequence c)
          (Candle.count c) o h l cl v w bv av iv (Candle.openInterest c)).

(** [candle_to_dataframe]: a one-row frame, or the empty frame and two
    printed lines when the [try] block raised. *)
Definition candle_to_dataframe (c : Candle.t) : DataFrame * list output :=
  match data_row c with
  | Some r => ([r], [])
  | None => ([], [PrintStr "EXCEPT: candle_to_dataframe"; PrintCandle c])
  end.

(** Lines 236-240: the snapshot gate. *)
Definition gate (flags : Z) (update_graph : bool) : bool :=
  let update_graph :=
    if flag_set flags SNAPSHOT_BEGIN then false else update_graph in
  if flag_set flags SNAPSHOT_END then true else update_graph.

(** Lines 242-247: the store after this candle, and what was printed. *)
Definition store (c : Candle.t) (df : DataFrame) : DataFrame * list output :=
  if Z.land (Candle.eventFlags c) REMOVE_EVENT =? 0 then
    let '(df_new, out) := candle_to_dataframe c in
    if negb (empty df_new) then (merge df df_new, out) else (df, out)
  else (df, []).

(** Lines 236-284: the body of the [try] once a candle has arrived. *)
Definition on_candle (c : Candle.t) (s : state) : state :=
  let update_graph := gate (Candle.eventFlags c) (update_graph s) in
  let '(df, out) := store c (df s) in
  let s' := mkState (run s) df update_graph (disp_df s) (drawn s)
              (label_quote s) (label_vwap s) (stdout s ++ out)
              (streamer_closed s) in
  if update_graph && negb (empty df) then publish c s' else s'.

(** One iteration of the [while] body: lines 231-287. *)
Definition iteration (p : poll) (s : state) : state :=
  match p with
  | Received c => on_candle c s
  | TimedOut => s
  end.

(** [get_candle_async] from the loop on, over a schedule: [run] is tested at
    the top of every iteration; when it is off the loop ends and the
    streamer is closed. *)
Fixpoint get_candle_async (ins : list input) (s : state) : state :=
  match ins with
  | [] => s
  | Quit :: rest => get_candle_async rest (quit s)
  | Poll p :: rest =>
      if run s then get_candle_async rest (iteration p s)
      else close_streamer s
  end.

(** The loop as long as nobody quits: a run of iterations. *)
Definition iterations (ps : list poll) (s : state) : state :=
  foldl (fun s p => iteration p s) s ps.

(** [p] delivers a candle that the loop merges under the key [t]. *)
Definition writes_key (t : Z) (p : poll) : bool :=
  match p with
  | Received c =>
      negb (flag_set (Candle.eventFlags c) REMOVE_EVENT) &&
      match data_row c with
      | Some r => DataRow.time r =? t
      | None => false
      end
  | TimedOut => false
  end.

(** [p] does not deliver a candle with SNAPSHOT_END set. *)
Definition no_snapshot_end (p : poll) : bool :=
  match p with
  | Received c => negb (flag_set (Candle.eventFlags c) SNAPSHOT_END)
  | TimedOut => true
  end.

(** The row the loop merges on [p], if any. *)
Definition merged_row (p : poll) : option DataRow.t :=
  match p with
  | Received c =>
      if flag_set (Candle.eventFlags c) REMOVE_EVENT then None
      else data_row c
  | TimedOut => None
  end.

(** The store as a map, one poll on. *)
Definition insert_row (m : gmap Z DataRow.t) (p : poll) : gmap Z DataRow.t :=
  match merged_row p with
  | Some r => <[DataRow.time r := r]> m
  | None => m
  end.

(** The keys the polls of [ps] write, in order. *)
Definition written_keys (ps : list poll) : list Z :=
  omap (fun p => DataRow.time <$> merged_row p) ps.

(** [display]: [asyncio.gather] of [animation_async] and
    [get_candle_async] over a schedule.  Each task tests [run] at the top of
    its loop; a heartbeat pass that finds it off ends the task. *)
Fixpoint display (evs : list event) (s : state) (t : ticker)
    : option (state * ticker) :=
  match evs with
  | [] => Some (s, t)
  | Beat :: rest =>
      if run s then t' ← beat t; display rest s t'
      else display rest s t
  | Core i :: rest => display rest (get_candle_async [i] s) t
  end.

(** Everything of the state but [run] and [streamer_closed]. *)
Definition shown (s : state) :=
  (df s, update_graph s, disp_df s, drawn s, label_quote s, label_vwap s,
   stdout s).

(** A frame the loop publishes: the indicator over a non-empty frame in
    ascending order. *)
Definition published_frame (f : frame) : Prop :=
  exists d : DataFrame, d <> [] /\ ascending d /\ f = Series (vwap d).

(** What the loop keeps true from its start on: behind the sample frame
    only published frames are drawn. *)
Definition loop_invariant (s : state) : Prop :=
  ascending (df s) /\
  last (drawn s) = Some (disp_df s) /\
  (exists frames : list frame,
     drawn s = SampleFrame :: frames /\ Forall published_frame frames) /\
  (streamer_closed s = true -> run s = false).

(** A row whose [volume] is NaN, as [float('NaN')] gives. *)
Definition nan_volume_row (ms : Z) : DataRow.t :=
  DataRow.mk "SPY" 0 0 0 (ms * 1000) 0 1
    (float_of_Z 5) (float_of_Z 5) (float_of_Z 5) (float_of_Z 5)
    S754_nan (float_of_Z 5) None None None PyNone.

(** ** Sample data *)

(** A machine whose local time is UTC, instants counted in microseconds. *)
Definition utc (ms : Z) : option Z := Some (ms * 1000).

Definition sample_candle (flags ms close volume vwap : Z) : Candle.t :=
  Candle.mk "SPY" 0 flags 0 ms 0 1
    (PyNumber (float_of_Z close)) (PyNumber (float_of_Z close))
    (PyNumber (float_of_Z close)) (PyNumber (float_of_Z close))
    (PyNumber (float_of_Z volume)) (PyNumber (float_of_Z vwap))
    PyNone PyNone PyNone PyNone.

Definition sample_row (flags ms close volume vwap : Z) : DataRow.t :=
  DataRow.mk "SPY" 0 flags 0 (ms * 1000) 0 1
    (float_of_Z close) (float_of_Z close)
    (float_of_Z close) (float_of_Z close)
    (float_of_Z volume) (float_of_Z vwap)
    None None None PyNone.

(** A candle whose price and volume fields are all [None]. *)
Definition undecodable_candle (flags ms : Z) : Candle.t :=
  Candle.mk "SPY" 0 flags 0 ms 0 0
    PyNone PyNone PyNone PyNone PyNone PyNone PyNone PyNone PyNone PyNone.

(** ** Facts about the store operations *)

#[local] Instance time_lt_trans : Transitive time_lt.
Proof. unfold time_lt; intros x y z; lia. Qed.

#[local] Instance time_lt_antisymm : AntiSymm (=) time_lt.
Proof. unfold time_lt; intros x y; lia. Qed.

Lemma existsb_time t (l : DataFrame) :
  existsb (fun x => DataRow.time x =? t) l = true <-> t ∈ DataRow.time <$> l.
Proof.
  induction l as [|a l IH]; simpl.
  - split; [discriminate | intros H; inversion H].
  - rewrite orb_true_iff, IH, elem_of_cons, Z.eqb_eq. intuition congruence.
Qed.

Lemma existsb_time_false t (l : DataFrame) :
  existsb (fun x => DataRow.time x =? t) l = false <-> t ∉ DataRow.time <$> l.
Proof.
  rewrite <- existsb_time. destruct (existsb _ l); intuition congruence.
Qed.

Lemma drop_duplicates_times t (l : DataFrame) :
  t ∈ DataRow.time <$> drop_duplicates l <-> t ∈ DataRow.time <$> l.
Proof.
  induction l as [|a l IH]; simpl; [done|].
  destruct (existsb _ l) eqn:E.
  - rewrite IH, elem_of_cons. apply existsb_time in E.
    split; [auto | intros [->|]; auto].
  - rewrite fmap_cons, !elem_of_cons, IH. done.
Qed.

Lemma drop_duplicates_NoDup (l : DataFrame) :
  NoDup (DataRow.time <$> drop_duplicates l).
Proof.
  induction l as [|a l IH]; simpl; [constructor|].
  destruct (existsb _ l) eqn:E; [done|].
  rewrite fmap_cons. constructor; [|done].
  rewrite drop_duplicates_times. by apply existsb_time_false.
Qed.

Lemma drop_duplicates_id (l : DataFrame) :
  NoDup (DataRow.time <$> l) -> drop_duplicates l = l.
Proof.
  induction l as [|a l IH]; simpl; [done|].
  rewrite NoDup_cons. intros [Hn Hd].
  apply existsb_time_false in Hn. rewrite Hn. f_equal. auto.
Qed.

Lemma drop_duplicates_snoc (l : DataFrame) (r : DataRow.t) :
  drop_duplicates (l ++ [r]) =
  filter (fun x => DataRow.time x <> DataRow.time r) (drop_duplicates l) ++ [r].
Proof.
  induction l as [|a l IH]; simpl; [done|].
  rewrite existsb_app. simpl. rewrite orb_false_r.
  destruct (decide (DataRow.time a = DataRow.time r)) as [Heq|Hne].
  - rewrite (proj2 (Z.eqb_eq _ _)) by done. rewrite orb_true_r, IH.
    destruct (existsb _ l); [done|].
    rewrite filter_cons_False by (intros H; by apply H). done.
  - rewrite (proj2 (Z.eqb_neq _ _)) by (intros H; by apply Hne).
    rewrite orb_false_r, IH.
    destruct (existsb _ l); [done|].
    rewrite filter_cons_True by done. done.
Qed.

Lemma insert_sorted_Permutation r (l : DataFrame) :
  insert_sorted r l ≡ₚ r :: l.
Proof.
  induction l as [|a l IH]; simpl; [done|].
  destruct (DataRow.time r <=? DataRow.time a); [done|].
  rewrite IH. apply Permutation_swap.
Qed.

Lemma sort_values_Permutation (l : DataFrame) : sort_values l ≡ₚ l.
Proof.
  induction l as [|a l IH]; simpl; [done|].
  by rewrite insert_sorted_Permutation, IH.
Qed.

Lemma ascending_NoDup (l : DataFrame) :
  ascending l -> NoDup (DataRow.time <$> l).
Proof.
  induction 1 as [|a l Hs IH Hall]; [constructor|].
  rewrite fmap_cons. constructor; [|done].
  rewrite list_elem_of_fmap. intros (y & Hy & Hin).
  rewrite Forall_forall in Hall. specialize (Hall y Hin).
  unfold time_lt in Hall. lia.
Qed.

Lemma insert_sorted_ascending r (l : DataFrame) :
  ascending l -> DataRow.time r ∉ DataRow.time <$> l ->
  ascending (insert_sorted r l).
Proof.
  unfold ascending.
  induction 1 as [|a l Hs IH Hall]; intros Hnot; simpl.
  - repeat constructor.
  - rewrite fmap_cons, not_elem_of_cons in Hnot. destruct Hnot as [Hne Hnot].
    destruct (Z.leb_spec (DataRow.time r) (DataRow.time a)).
    + constructor; [by constructor|].
      assert (time_lt r a) by (unfold time_lt; lia).
      constructor; [done|].
      eapply Forall_impl; [exact Hall|]. intros y Hy. by etrans.
    + constructor; [auto|].
      rewrite insert_sorted_Permutation.
      constructor; [unfold time_lt; lia | done].
Qed.

Lemma sort_values_ascending (l : DataFrame) :
  NoDup (DataRow.time <$> l) -> ascending (sort_values l).
Proof.
  induction l as [|a l IH]; simpl; [constructor|].
  rewrite NoDup_cons. intros [Hn Hd].
  apply insert_sorted_ascending; [auto|].
  by rewrite sort_values_Permutation.
Qed.

Lemma merge_ascending (df df_new : DataFrame) : ascending (merge df df_new).
Proof. apply sort_values_ascending, drop_duplicates_NoDup. Qed.

Lemma ascending_unique (l1 l2 : DataFrame) :
  ascending l1 -> ascending l2 -> l1 ≡ₚ l2 -> l1 = l2.
Proof. apply StronglySorted_unique; apply _. Qed.

Lemma sort_values_id (l : DataFrame) : ascending l -> sort_values l = l.
Proof.
  intros H. apply ascending_unique; [|done|apply sort_values_Permutation].
  by apply sort_values_ascending, ascending_NoDup.
Qed.

Lemma time_le_ascending (l : DataFrame) :
  StronglySorted time_le l -> NoDup (DataRow.time <$> l) -> ascending l.
Proof.
  induction 1 as [|a l Hs IH Hall]; [constructor|].
  rewrite fmap_cons, NoDup_cons. intros [Hn Hd].
  constructor; [by apply IH|].
  apply Forall_forall. intros y Hy.
  rewrite Forall_forall in Hall.
  specialize (Hall y Hy). unfold time_le in Hall. unfold time_lt.
  assert (DataRow.time a <> DataRow.time y); [|lia].
  intros Heq. apply Hn. rewrite Heq. by apply list_elem_of_fmap_2.
Qed.

(** Whatever algorithm sorts a frame with pairwise distinct [time] values,
    the outcome is the one of [sort_values]. *)
Lemma sort_values_unique (l l' : DataFrame) :
  NoDup (DataRow.time <$> l) -> l' ≡ₚ l -> StronglySorted time_le l' ->
  l' = sort_values l.
Proof.
  intros Hd Hp Hs. apply ascending_unique.
  - apply time_le_ascending; [done|]. by rewrite Hp.
  - by apply sort_values_ascending.
  - by rewrite sort_values_Permutation.
Qed.

Lemma ascending_filter (P : DataRow.t -> Prop) `{!forall x, Decision (P x)}
    (l : DataFrame) :
  ascending l -> ascending (filter P l).
Proof.
  induction 1 as [|a l Hs IH Hall]; [constructor|].
  rewrite filter_cons. destruct (decide (P a)); [|done].
  constructor; [done|].
  rewrite Forall_forall in Hall |- *. intros y Hy.
  apply list_elem_of_filter in Hy. apply Hall, Hy.
Qed.

Lemma filter_time_split t (l : DataFrame) :
  filter (fun x => DataRow.time x <> t) l ≡ₚ
  filter (fun x => DataRow.time x < t) l ++
  filter (fun x => t < DataRow.time x) l.
Proof.
  induction l as [|a l IH]; [done|].
  rewrite !filter_cons.
  destruct (decide (DataRow.time a < t)), (decide (t < DataRow.time a)),
    (decide (DataRow.time a <> t)); try lia; simpl.
  - by rewrite IH.
  - rewrite IH. apply Permutation_middle.
  - done.
Qed.

Lemma merge_Permutation (df : DataFrame) (r : DataRow.t) :
  merge df [r] ≡ₚ
  r :: filter (fun x => DataRow.time x <> DataRow.time r) (drop_duplicates df).
Proof.
  unfold merge. rewrite sort_values_Permutation, drop_duplicates_snoc.
  by rewrite Permutation_app_comm.
Qed.

(** On a store in ascending order, the three pandas calls amount to putting
    the row at its place, in place of the row of the same [time] if any. *)
Lemma merge_ascending_row (df : DataFrame) (r : DataRow.t) :
  ascending df ->
  merge df [r] =
  filter (fun x => DataRow.time x < DataRow.time r) df ++
  r :: filter (fun x => DataRow.time r < DataRow.time x) df.
Proof.
  intros Hasc. apply ascending_unique; [apply merge_ascending| |].
  - apply StronglySorted_app_2.
    + intros x1 x2 H1 H2. apply list_elem_of_filter in H1 as [H1 _].
      apply elem_of_cons in H2 as [->|H2]; [done|].
      apply list_elem_of_filter in H2 as [H2 _]. unfold time_lt. lia.
    + by apply ascending_filter.
    + constructor; [by apply ascending_filter|].
      apply Forall_forall. intros y Hy.
      by apply list_elem_of_filter in Hy as [Hy _].
  - rewrite merge_Permutation, drop_duplicates_id by by apply ascending_NoDup.
    rewrite filter_time_split. apply Permutation_middle.
Qed.

Lemma rows_at_merge (df : DataFrame) (r : DataRow.t) :
  rows_at (DataRow.time r) (merge df [r]) = [r].
Proof.
  apply Permutation_singleton_r. unfold rows_at.
  rewrite merge_Permutation, filter_cons_True by done.
  rewrite list_filter_filter.
  rewrite (list_filter_iff _ (fun _ => False)) by (intros x; tauto).
  assert (Hnil : forall l : DataFrame, filter (fun _ => False) l = []).
  { induction l as [|a l IH]; [done|]. rewrite filter_cons_False; tauto. }
  by rewrite Hnil.
Qed.

Lemma rows_at_merge_ne (df : DataFrame) (r : DataRow.t) (k : Z) :
  ascending df -> k <> DataRow.time r ->
  rows_at k (merge df [r]) = rows_at k df.
Proof.
  intros Hasc Hk. apply ascending_unique.
  - apply ascending_filter, merge_ascending.
  - by apply ascending_filter.
  - unfold rows_at. rewrite merge_Permutation, filter_cons_False by congruence.
    rewrite drop_duplicates_id by by apply ascending_NoDup.
    rewrite list_filter_filter.
    by rewrite (list_filter_iff _ (fun x => DataRow.time x = k))
      by (intros x; split; [tauto | intros ->; by split]).
Qed.

Lemma store_map_cons (r : DataRow.t) (df : DataFrame) :
  store_map (r :: df) = <[DataRow.time r := r]> (store_map df).
Proof. done. Qed.

Lemma store_map_filter_ne (t k : Z) (df : DataFrame) :
  k <> t ->
  store_map (filter (fun x => DataRow.time x <> t) df) !! k = store_map df !! k.
Proof.
  intros Hk. induction df as [|a l IH]; [done|].
  rewrite filter_cons. destruct (decide (DataRow.time a <> t)) as [Hne|Heq].
  - rewrite !store_map_cons, !lookup_insert. by rewrite IH.
  - assert (DataRow.time a = t) as Ha by lia.
    rewrite store_map_cons, lookup_insert_ne by congruence. done.
Qed.

Lemma store_map_Permutation (l1 l2 : DataFrame) :
  NoDup (DataRow.time <$> l1) -> l1 ≡ₚ l2 -> store_map l1 = store_map l2.
Proof.
  intros Hd Hp. unfold store_map. apply list_to_map_proper.
  - by rewrite <- list_fmap_compose.
  - by rewrite Hp.
Qed.

(** In the map view a merge is an insertion at the row's [time]. *)
Lemma store_map_merge (df : DataFrame) (r : DataRow.t) :
  ascending df ->
  store_map (merge df [r]) = <[DataRow.time r := r]> (store_map df).
Proof.
  intros Hasc.
  rewrite (store_map_Permutation _ _
             (ascending_NoDup _ (merge_ascending df [r]))
             (merge_Permutation df r)).
  rewrite store_map_cons, drop_duplicates_id by by apply ascending_NoDup.
  apply map_eq. intros k.
  destruct (decide (k = DataRow.time r)) as [->|Hk].
  - by rewrite !lookup_insert_eq.
  - rewrite !lookup_insert_ne by congruence. by apply store_map_filter_ne.
Qed.

Lemma store_map_lookup (df : DataFrame) (t : Z) (r : DataRow.t) :
  ascending df -> store_map df !! t = Some r <-> r ∈ df /\ DataRow.time r = t.
Proof.
  intros Hasc. unfold store_map.
  rewrite <- elem_of_list_to_map
    by (rewrite <- list_fmap_compose; by apply ascending_NoDup).
  rewrite list_elem_of_fmap. split.
  - intros (y & [= -> ->] & Hy). done.
  - intros [Hin <-]. by exists r.
Qed.

(** ** Facts about one loop iteration *)

Lemma store_remove (c : Candle.t) (d : DataFrame) :
  flag_set (Candle.eventFlags c) REMOVE_EVENT = true -> store c d = (d, []).
Proof.
  unfold store, flag_set. intros H.
  by destruct (Z.land (Candle.eventFlags c) REMOVE_EVENT =? 0).
Qed.

Lemma store_decoded (c : Candle.t) (d : DataFrame) (r : DataRow.t) :
  flag_set (Candle.eventFlags c) REMOVE_EVENT = false ->
  data_row c = Some r -> store c d = (merge d [r], []).
Proof.
  unfold store, flag_set, candle_to_dataframe. intros H ->.
  by destruct (Z.land (Candle.eventFlags c) REMOVE_EVENT =? 0).
Qed.

Lemma store_failed (c : Candle.t) (d : DataFrame) :
  flag_set (Candle.eventFlags c) REMOVE_EVENT = false ->
  data_row c = None ->
  store c d = (d, [PrintStr "EXCEPT: candle_to_dataframe"; PrintCandle c]).
Proof.
  unfold store, flag_set, candle_to_dataframe. intros H ->.
  by destruct (Z.land (Candle.eventFlags c) REMOVE_EVENT =? 0).
Qed.

Lemma store_cases (c : Candle.t) (d : DataFrame) :
  fst (store c d) = d \/
  exists r, data_row c = Some r /\ fst (store c d) = merge d [r].
Proof.
  destruct (flag_set (Candle.eventFlags c) REMOVE_EVENT) eqn:E.
  - left. by rewrite store_remove.
  - destruct (data_row c) as [r|] eqn:D.
    + right. exists r. by rewrite (store_decoded c d r).
    + left. by rewrite store_failed.
Qed.

Lemma on_candle_df (c : Candle.t) (s : state) :
  df (on_candle c s) = fst (store c (df s)).
Proof.
  unfold on_candle. destruct (store c (df s)) as [d out]. simpl.
  by destruct (gate _ _ && negb (empty d)).
Qed.

Lemma on_candle_update_graph (c : Candle.t) (s : state) :
  update_graph (on_candle c s) = gate (Candle.eventFlags c) (update_graph s).
Proof.
  unfold on_candle. destruct (store c (df s)) as [d out]. simpl.
  by destruct (gate _ _ && negb (empty d)).
Qed.

Lemma on_candle_run (c : Candle.t) (s : state) : run (on_candle c s) = run s.
Proof.
  unfold on_candle. destruct (store c (df s)) as [d out]. simpl.
  by destruct (gate _ _ && negb (empty d)).
Qed.

Lemma on_candle_stdout (c : Candle.t) (s : state) :
  stdout (on_candle c s) = stdout s ++ snd (store c (df s)).
Proof.
  unfold on_candle. destruct (store c (df s)) as [d out]. simpl.
  by destruct (gate _ _ && negb (empty d)).
Qed.

Lemma on_candle_drawn (c : Candle.t) (s : state) :
  drawn (on_candle c s) =
  if update_graph (on_candle c s) && negb (empty (df (on_candle c s)))
  then drawn s ++ [Series (vwap (df (on_candle c s)))]
  else drawn s.
Proof.
  rewrite on_candle_update_graph, on_candle_df.
  unfold on_candle. destruct (store c (df s)) as [d out]. simpl.
  by destruct (gate _ _ && negb (empty d)).
Qed.

Lemma on_candle_disp_df (c : Candle.t) (s : state) :
  disp_df (on_candle c s) =
  if update_graph (on_candle c s) && negb (empty (df (on_candle c s)))
  then Series (vwap (df (on_candle c s)))
  else disp_df s.
Proof.
  rewrite on_candle_update_graph, on_candle_df.
  unfold on_candle. destruct (store c (df s)) as [d out]. simpl.
  by destruct (gate _ _ && negb (empty d)).
Qed.

Lemma on_candle_ascending (c : Candle.t) (s : state) :
  ascending (df s) -> ascending (df (on_candle c s)).
Proof.
  intros H. rewrite on_candle_df.
  destruct (store_cases c (df s)) as [->|(r & _ & ->)];
    [done | apply merge_ascending].
Qed.

Lemma iteration_ascending (p : poll) (s : state) :
  ascending (df s) -> ascending (df (iteration p s)).
Proof. destruct p; simpl; [apply on_candle_ascending | done]. Qed.

Lemma iterations_ascending (ps : list poll) (s : state) :
  ascending (df s) -> ascending (df (iterations ps s)).
Proof.
  revert s. induction ps as [|p ps IH]; intros s H; [done|].
  apply IH. by apply iteration_ascending.
Qed.

Lemma get_candle_async_ascending (ins : list input) (s : state) :
  ascending (df s) -> ascending (df (get_candle_async ins s)).
Proof.
  revert s. induction ins as [|[p|] ins IH]; intros s H; simpl; [done| |].
  - destruct (run s); [|done]. apply IH. by apply iteration_ascending.
  - by apply IH.
Qed.

Lemma iteration_rows_at (t : Z) (p : poll) (s : state) :
  ascending (df s) -> writes_key t p = false ->
  rows_at t (df (iteration p s)) = rows_at t (df s).
Proof.
  intros Hasc Hw. destruct p as [c|]; simpl; [|done].
  rewrite on_candle_df. simpl in Hw.
  destruct (flag_set (Candle.eventFlags c) REMOVE_EVENT) eqn:E.
  - by rewrite store_remove.
  - destruct (data_row c) as [r|] eqn:D.
    + rewrite (store_decoded c (df s) r) by done. simpl in *.
      apply rows_at_merge_ne; [done|]. apply Z.eqb_neq in Hw. congruence.
    + by rewrite store_failed.
Qed.

Lemma iterations_rows_at (t : Z) (ps : list poll) (s : state) :
  ascending (df s) -> Forall (fun p => writes_key t p = false) ps ->
  rows_at t (df (iterations ps s)) = rows_at t (df s).
Proof.
  revert s. induction ps as [|p ps IH]; intros s Hasc Hall; [done|].
  inversion Hall as [|? ? Hp Hps]; subst.
  change (iterations (p :: ps) s) with (iterations ps (iteration p s)).
  rewrite IH by (by try apply iteration_ascending).
  by apply iteration_rows_at.
Qed.

Lemma iterations_app (ps qs : list poll) (s : state) :
  iterations (ps ++ qs) s = iterations qs (iterations ps s).
Proof. apply foldl_app. Qed.

(** ** The series store *)

(** C1, as the code has it: an event with the REMOVE flag set leaves the
    store as it is.  The record is never inserted and nothing is printed, an
    entry already stored under its [time] stays, and under every key the
    store holds after the iteration what it held before. *)
Theorem remove_event_leaves_store (c : Candle.t) (s : state) :
  flag_set (Candle.eventFlags c) REMOVE_EVENT = true ->
  store c (df s) = (df s, []) /\
  df (on_candle c s) = df s /\
  forall t, store_map (df (on_candle c s)) !! t = store_map (df s) !! t.
Proof.
  intros H. pose proof (store_remove c (df s) H) as Hs.
  assert (df (on_candle c s) = df s) as Hd by (by rewrite on_candle_df, Hs).
  repeat split; [done..|]. intros t. by rewrite Hd.
Qed.

(** C2: a decoded record [r] without the REMOVE flag is stored under
    [DataRow.time r] in full.  In the map view the merge is the insertion
    [<[DataRow.time r := r]>]; in the frame exactly one row has that [time], and
    it is [r]; the rows under every other key are untouched.  Consequently,
    whatever was merged before (a record of the same [time] and another
    [close] included) and whatever is merged afterwards under other keys,
    the one row under that [time] is the last record merged there. *)
Theorem merge_inserts_or_overwrites (c : Candle.t) (r : DataRow.t) (s : state) :
  ascending (df s) ->
  flag_set (Candle.eventFlags c) REMOVE_EVENT = false ->
  data_row c = Some r ->
  store_map (df (on_candle c s)) = <[DataRow.time r := r]> (store_map (df s)) /\
  rows_at (DataRow.time r) (df (on_candle c s)) = [r] /\
  (forall k, k <> DataRow.time r ->
     rows_at k (df (on_candle c s)) = rows_at k (df s)) /\
  (forall before after : list poll,
     Forall (fun p => writes_key (DataRow.time r) p = false) after ->
     rows_at (DataRow.time r)
       (df (iterations (before ++ Received c :: after) s)) = [r]).
Proof.
  intros Hasc Hrm Hdec.
  assert (Hdf : forall s0, df (on_candle c s0) = merge (df s0) [r]).
  { intros s0. by rewrite on_candle_df, (store_decoded c (df s0) r). }
  rewrite Hdf. split_and!.
  - by apply store_map_merge.
  - apply rows_at_merge.
  - intros k Hk. by apply rows_at_merge_ne.
  - intros before after Hafter.
    rewrite iterations_app.
    change (iterations (Received c :: after) ?s0)
      with (iterations after (on_candle c s0)).
    rewrite iterations_rows_at; [|by apply on_candle_ascending,
      iterations_ascending|done].
    rewrite Hdf. apply rows_at_merge.
Qed.

(** C3: the store iterates strictly ascending by [time], without duplicate
    keys: initially, after every merge whatever the frame was before, after
    every iteration of the loop, and so in every state the loop reaches from
    the empty store. *)
Theorem store_always_ascending :
  (ascending (df init) /\ NoDup (DataRow.time <$> df init)) /\
  (forall d d_new : DataFrame,
     ascending (merge d d_new) /\ NoDup (DataRow.time <$> merge d d_new)) /\
  (forall (c : Candle.t) (s : state),
     df (on_candle c s) = df s \/
     (ascending (df (on_candle c s)) /\
      NoDup (DataRow.time <$> df (on_candle c s)))) /\
  (forall ins : list input,
     ascending (df (get_candle_async ins init)) /\
     NoDup (DataRow.time <$> df (get_candle_async ins init))).
Proof.
  assert (Hinit : ascending (df init)) by constructor.
  split_and!.
  - done.
  - constructor.
  - intros d d_new. split; [|apply ascending_NoDup]; apply merge_ascending.
  - intros c s. rewrite on_candle_df.
    destruct (store_cases c (df s)) as [->|(r & _ & ->)]; [by left|right].
    split; [|apply ascending_NoDup]; apply merge_ascending.
  - intros ins.
    split; [|apply ascending_NoDup]; by apply get_candle_async_ascending.
Qed.

(** ** The snapshot gate *)

Lemma length_cumsum_from (acc : float) (l : list float) :
  length (cumsum_from acc l) = length l.
Proof. revert acc. induction l as [|x l IH]; intros acc; simpl; auto. Qed.

Lemma length_cumsum (l : list float) : length (cumsum l) = length l.
Proof. destruct l; simpl; [done|]. by rewrite length_cumsum_from. Qed.

Lemma length_indicator (d : DataFrame) :
  length (zip_with fdiv
            (cumsum (zip_with fmul (DataRow.vwap <$> d) (DataRow.volume <$> d)))
            (cumsum (DataRow.volume <$> d))) = length d.
Proof.
  rewrite length_zip_with, !length_cumsum, length_zip_with, !length_fmap. lia.
Qed.

Lemma vwap_rows (d : DataFrame) : (vwap d).*1 = d.
Proof. unfold vwap. apply fst_zip. by rewrite length_indicator. Qed.

Lemma length_vwap (d : DataFrame) : length (vwap d) = length d.
Proof. by rewrite <- (vwap_rows d) at 2; rewrite length_fmap. Qed.

Lemma gate_spec (flags : Z) (g : bool) :
  gate flags g =
  if flag_set flags SNAPSHOT_END then true
  else if flag_set flags SNAPSHOT_BEGIN then false
  else g.
Proof.
  unfold gate.
  by destruct (flag_set flags SNAPSHOT_END), (flag_set flags SNAPSHOT_BEGIN).
Qed.

Lemma iteration_suppressed (p : poll) (s : state) :
  update_graph s = false -> no_snapshot_end p = true ->
  update_graph (iteration p s) = false /\
  drawn (iteration p s) = drawn s /\
  disp_df (iteration p s) = disp_df s.
Proof.
  intros Hg Hp. destruct p as [c|]; simpl; [|done].
  simpl in Hp. apply negb_true_iff in Hp.
  assert (update_graph (on_candle c s) = false) as Hg'.
  { rewrite on_candle_update_graph, gate_spec, Hp, Hg.
    by destruct (flag_set _ SNAPSHOT_BEGIN). }
  by rewrite on_candle_drawn, on_candle_disp_df, Hg'.
Qed.

Lemma iterations_suppressed (ps : list poll) (s : state) :
  update_graph s = false -> Forall (fun p => no_snapshot_end p = true) ps ->
  update_graph (iterations ps s) = false /\
  drawn (iterations ps s) = drawn s /\
  disp_df (iterations ps s) = disp_df s.
Proof.
  revert s. induction ps as [|p ps IH]; intros s Hg Hall; [done|].
  inversion Hall as [|? ? Hp Hps]; subst.
  change (iterations (p :: ps) s) with (iterations ps (iteration p s)).
  destruct (iteration_suppressed p s Hg Hp) as (Hg' & Hd & Hf).
  destruct (IH (iteration p s) Hg' Hps) as (? & ? & ?).
  split_and!; congruence.
Qed.

Lemma merge_last (d : DataFrame) (r : DataRow.t) :
  ascending d -> Forall (fun x => time_lt x r) d -> merge d [r] = d ++ [r].
Proof.
  intros Hasc Hall. rewrite merge_ascending_row by done.
  assert (filter (fun x => DataRow.time x < DataRow.time r) d = d) as ->.
  { clear Hasc. induction Hall as [|x d Hx Hall IH]; [done|].
    rewrite filter_cons_True by done. by rewrite IH. }
  assert (filter (fun x => DataRow.time r < DataRow.time x) d = []) as ->;
    [|done].
  clear Hasc. induction Hall as [|x d Hx Hall IH]; [done|].
  rewrite filter_cons_False by (unfold time_lt in Hx; lia). done.
Qed.

(** C4: the gate is Suppressed ([update_graph = False]) on entry of the loop.
    A candle with SNAPSHOT_END set leaves it Publishable; one with
    SNAPSHOT_BEGIN set and SNAPSHOT_END clear leaves it Suppressed; any
    other candle leaves it as it was, so no other flag drives it.  An
    iteration redraws (recomputes the indicator over the whole store and
    hands the series over) exactly when, after the candle, the gate is
    Publishable and the store is not empty; the store is merged whatever
    the gate says.  So for candles flagged BEGIN, none, END at
    [T0 < T1 < T2] arriving at an empty store, nothing is drawn after the
    first two and the series drawn after the third holds all three rows;
    and after a BEGIN, candles without SNAPSHOT_END, however many, leave
    the gate Suppressed and draw nothing. *)
Theorem snapshot_gate_drives_publish :
  update_graph init = false /\
  (forall (c : Candle.t) (s : state),
     update_graph (on_candle c s) =
     if flag_set (Candle.eventFlags c) SNAPSHOT_END then true
     else if flag_set (Candle.eventFlags c) SNAPSHOT_BEGIN then false
     else update_graph s) /\
  (forall (c : Candle.t) (s : state),
     if update_graph (on_candle c s) && negb (empty (df (on_candle c s)))
     then drawn (on_candle c s) =
            drawn s ++ [Series (vwap (df (on_candle c s)))] /\
          disp_df (on_candle c s) = Series (vwap (df (on_candle c s)))
     else drawn (on_candle c s) = drawn s /\
          disp_df (on_candle c s) = disp_df s) /\
  (forall (c : Candle.t) (r : DataRow.t) (s : state),
     flag_set (Candle.eventFlags c) REMOVE_EVENT = false ->
     data_row c = Some r ->
     df (on_candle c s) = merge (df s) [r]) /\
  (forall (c0 c1 c2 : Candle.t) (r0 r1 r2 : DataRow.t) (s : state),
     df s = [] ->
     flag_set (Candle.eventFlags c0) SNAPSHOT_BEGIN = true ->
     flag_set (Candle.eventFlags c0) SNAPSHOT_END = false ->
     flag_set (Candle.eventFlags c1) SNAPSHOT_BEGIN = false ->
     flag_set (Candle.eventFlags c1) SNAPSHOT_END = false ->
     flag_set (Candle.eventFlags c2) SNAPSHOT_END = true ->
     flag_set (Candle.eventFlags c0) REMOVE_EVENT = false ->
     flag_set (Candle.eventFlags c1) REMOVE_EVENT = false ->
     flag_set (Candle.eventFlags c2) REMOVE_EVENT = false ->
     data_row c0 = Some r0 -> data_row c1 = Some r1 -> data_row c2 = Some r2 ->
     DataRow.time r0 < DataRow.time r1 -> DataRow.time r1 < DataRow.time r2 ->
     drawn (on_candle c0 s) = drawn s /\
     drawn (on_candle c1 (on_candle c0 s)) = drawn s /\
     drawn (on_candle c2 (on_candle c1 (on_candle c0 s))) =
       drawn s ++ [Series (vwap [r0; r1; r2])] /\
     (vwap [r0; r1; r2]).*1 = [r0; r1; r2]) /\
  (forall (c : Candle.t) (ps : list poll) (s : state),
     flag_set (Candle.eventFlags c) SNAPSHOT_BEGIN = true ->
     flag_set (Candle.eventFlags c) SNAPSHOT_END = false ->
     Forall (fun p => no_snapshot_end p = true) ps ->
     update_graph (iterations ps (on_candle c s)) = false /\
     drawn (iterations ps (on_candle c s)) = drawn s).
Proof.
  split_and!.
  - done.
  - intros c s. by rewrite on_candle_update_graph, gate_spec.
  - intros c s. rewrite (on_candle_drawn c s), (on_candle_disp_df c s).
    by destruct (update_graph (on_candle c s) && _).
  - intros c r s Hrm Hdec. by rewrite on_candle_df, (store_decoded c (df s) r).
  - intros c0 c1 c2 r0 r1 r2 s Hemp Hb0 He0 Hb1 He1 He2 Hr0 Hr1 Hr2 D0 D1 D2
      Hlt01 Hlt12.
    set (s1 := on_candle c0 s). set (s2 := on_candle c1 s1).
    set (s3 := on_candle c2 s2).
    assert (df s1 = [r0]) as Hd1.
    { unfold s1. by rewrite on_candle_df, (store_decoded c0 (df s) r0), Hemp. }
    assert (df s2 = [r0; r1]) as Hd2.
    { unfold s2.
      rewrite on_candle_df, (store_decoded c1 (df s1) r1), Hd1 by done.
      simpl. apply (merge_last [r0] r1); repeat constructor. done. }
    assert (df s3 = [r0; r1; r2]) as Hd3.
    { unfold s3.
      rewrite on_candle_df, (store_decoded c2 (df s2) r2), Hd2 by done.
      simpl. apply (merge_last [r0; r1] r2); repeat constructor;
        unfold time_lt; lia. }
    assert (update_graph s1 = false) as Hg1.
    { unfold s1. by rewrite on_candle_update_graph, gate_spec, He0, Hb0. }
    assert (update_graph s2 = false) as Hg2.
    { unfold s2. by rewrite on_candle_update_graph, gate_spec, He1, Hb1. }
    assert (update_graph s3 = true) as Hg3.
    { unfold s3. by rewrite on_candle_update_graph, gate_spec, He2. }
    assert (drawn s1 = drawn s) as Hw1.
    { unfold s1. rewrite on_candle_drawn. fold s1. by rewrite Hg1. }
    assert (drawn s2 = drawn s) as Hw2.
    { unfold s2. rewrite on_candle_drawn. fold s2. by rewrite Hg2. }
    split_and!; [done|done| |apply vwap_rows].
    unfold s3. rewrite on_candle_drawn. fold s3. by rewrite Hg3, Hd3, Hw2.
  - intros c ps s Hb He Hall.
    assert (update_graph (on_candle c s) = false) as Hg.
    { by rewrite on_candle_update_graph, gate_spec, He, Hb. }
    destruct (iterations_suppressed ps (on_candle c s) Hg Hall) as (? & Hd & _).
    split; [done|]. by rewrite Hd, on_candle_drawn, Hg.
Qed.

(** ** Binary64 addition of numbers that are not negative *)

Lemma shr_1_div2 (mrs : shr_record) :
  0 <= shr_m mrs -> shr_m (shr_1 mrs) = Z.div2 (shr_m mrs).
Proof. destruct mrs as [[|[p|p|]|p] r s]; simpl; [done..|lia]. Qed.

Lemma shr_m_iter (p : positive) (mrs : shr_record) :
  0 <= shr_m mrs ->
  shr_m (SpecFloat.iter_pos shr_1 p mrs) = shr_m mrs / 2 ^ Z.pos p.
Proof.
  revert mrs. induction p as [p IH|p IH|]; intros mrs Hm; simpl.
  - assert (0 <= shr_m (shr_1 mrs)) as H1.
    { rewrite shr_1_div2, Z.div2_div by done. by apply Z.div_pos. }
    assert (0 <= shr_m (SpecFloat.iter_pos shr_1 p (shr_1 mrs))) as H2.
    { rewrite IH by done. apply Z.div_pos; [done|]. by apply Z.pow_pos_nonneg. }
    rewrite IH, IH by done. rewrite shr_1_div2, Z.div2_div by done.
    rewrite !Z.div_div by (try apply Z.pow_pos_nonneg; lia).
    f_equal. rewrite <- Z.pow_add_r, <- Z.pow_succ_r by lia. f_equal. lia.
  - assert (0 <= shr_m (SpecFloat.iter_pos shr_1 p mrs)) as H2.
    { rewrite IH by done. apply Z.div_pos; [done|]. by apply Z.pow_pos_nonneg. }
    rewrite IH, IH by done.
    rewrite !Z.div_div by (try apply Z.pow_pos_nonneg; lia).
    f_equal. rewrite <- Z.pow_add_r by lia. f_equal. lia.
  - by rewrite shr_1_div2, Z.div2_div.
Qed.

Lemma digits2_pos_bounds (m : positive) :
  2 ^ (Z.pos (digits2_pos m) - 1) <= Z.pos m < 2 ^ Z.pos (digits2_pos m).
Proof.
  induction m as [m IH|m IH|]; simpl digits2_pos; [| |by compute].
  - rewrite Pos2Z.inj_succ, (Pos2Z.inj_xI m).
    replace (Z.succ (Z.pos (digits2_pos m)) - 1)
      with (Z.succ (Z.pos (digits2_pos m) - 1)) by lia.
    rewrite !Z.pow_succ_r by lia.
    revert IH. generalize (2 ^ (Z.pos (digits2_pos m) - 1)).
    generalize (2 ^ Z.pos (digits2_pos m)). lia.
  - rewrite Pos2Z.inj_succ, (Pos2Z.inj_xO m).
    replace (Z.succ (Z.pos (digits2_pos m)) - 1)
      with (Z.succ (Z.pos (digits2_pos m) - 1)) by lia.
    rewrite !Z.pow_succ_r by lia.
    revert IH. generalize (2 ^ (Z.pos (digits2_pos m) - 1)).
    generalize (2 ^ Z.pos (digits2_pos m)). lia.
Qed.

Lemma shr_fexp_pos (m : positive) (e : Z) (l : location) :
  emin 53 1024 <= e ->
  0 < shr_m (fst (shr_fexp 53 1024 (Z.pos m) e l)) /\
  emin 53 1024 <= snd (shr_fexp 53 1024 (Z.pos m) e l).
Proof.
  intros He. unfold shr_fexp, shr. simpl Zdigits2.
  assert (shr_m (shr_record_of_loc (Z.pos m) l) = Z.pos m) as Hm.
  { by destruct l as [|[]]. }
  destruct (fexp 53 1024 (Z.pos (digits2_pos m) + e) - e) as [|p|p] eqn:En;
    simpl; rewrite ?Hm; [lia| |lia].
  split; [|lia].
  rewrite shr_m_iter by (rewrite Hm; lia). rewrite Hm.
  unfold fexp, emin in *.
  pose proof (digits2_pos_bounds m) as [Hlo _].
  apply Z.div_str_pos. split; [by apply Z.pow_pos_nonneg|].
  etrans; [|exact Hlo]. apply Z.pow_le_mono_r; lia.
Qed.

Lemma round_nearest_even_pos (m : Z) (l : location) :
  0 < m -> 0 < round_nearest_even m l.
Proof. destruct l as [|[]]; simpl; try lia. destruct (Z.even m); lia. Qed.

Lemma binary_round_aux_class (m : positive) (e : Z) (l : location) :
  emin 53 1024 <= e ->
  nonneg_class (binary_round_aux 53 1024 false (Z.pos m) e l) /\
  is_zero (binary_round_aux 53 1024 false (Z.pos m) e l) = false.
Proof.
  intros He. unfold binary_round_aux.
  destruct (shr_fexp_pos m e l He) as [Hm1 He1].
  destruct (shr_fexp 53 1024 (Z.pos m) e l) as [mrs1 e1]. simpl in Hm1, He1.
  pose proof (round_nearest_even_pos (shr_m mrs1) (loc_of_shr_record mrs1) Hm1)
    as Hr.
  destruct (round_nearest_even (shr_m mrs1) (loc_of_shr_record mrs1))
    as [|m2|m2]; [lia| |lia].
  destruct (shr_fexp_pos m2 e1 loc_Exact He1) as [Hm2 He2].
  destruct (shr_fexp 53 1024 (Z.pos m2) e1 loc_Exact) as [mrs2 e2].
  simpl in Hm2, He2.
  destruct (shr_m mrs2) as [|m3|m3]; [lia| |lia].
  by destruct (e2 <=? 1024 - 53).
Qed.

Lemma binary_round_class (m : positive) (e : Z) :
  emin 53 1024 <= e ->
  nonneg_class (binary_round 53 1024 false m e) /\
  is_zero (binary_round 53 1024 false m e) = false.
Proof.
  intros He. unfold binary_round.
  destruct (shl_align m e (fexp 53 1024 (Z.pos (digits2_pos m) + e)))
    as [mz ez] eqn:Ea.
  apply binary_round_aux_class.
  unfold shl_align in Ea.
  destruct (fexp 53 1024 (Z.pos (digits2_pos m) + e) - e) eqn:Ed;
    injection Ea as <- <-; try done.
  unfold fexp. lia.
Qed.

Lemma fadd_nonneg (x y : float) :
  nonneg_class x -> nonneg_class y ->
  nonneg_class (fadd x y) /\
  (is_zero (fadd x y) = true -> is_zero x = true /\ is_zero y = true).
Proof.
  destruct x as [sx|sx| |sx mx ex], y as [sy|sy| |sy my ey]; simpl;
    try (intros; subst; split; [done|]; by intros; try destruct sx, sy).
  - intros _ _. by destruct sx, sy.
  - intros [-> Hx] [-> Hy]. simpl cond_Zopp.
    rewrite <- Pos2Z.inj_add. simpl binary_normalize.
    destruct (binary_round_class
                (fst (shl_align mx ex (Z.min ex ey)) +
                 fst (shl_align my ey (Z.min ex ey)))%positive (Z.min ex ey))
      as [H1 H2]; [lia|].
    split; [done|]. by rewrite H2.
Qed.

Lemma not_negative_class (x : float) :
  not_negative x = true -> nonneg_class x.
Proof.
  destruct x as [s|s| |s m e]; simpl; try done.
  - by intros ->%negb_true_iff.
  - unfold bounded, canonical_mantissa, fexp, emin.
    intros [->%negb_true_iff [Hc _]%andb_true_iff]%andb_true_iff.
    apply Z.eqb_eq in Hc. split; [done|lia].
Qed.

Lemma sum_upto_nonneg (f : nat -> float) (i : nat) :
  (forall j, (j <= i)%nat -> nonneg_class (f j)) ->
  nonneg_class (sum_upto f i) /\
  (is_zero (sum_upto f i) = true ->
   forall j, (j <= i)%nat -> is_zero (f j) = true).
Proof.
  induction i as [|i IH]; intros H; simpl.
  - split; [apply H; lia|]. intros Hz j Hj.
    by replace j with O by lia.
  - destruct IH as [IH1 IH2]; [intros j Hj; apply H; lia|].
    destruct (fadd_nonneg (sum_upto f i) (f (S i)) IH1) as [H1 H2];
      [apply H; lia|].
    split; [done|]. intros Hz j Hj. destruct (H2 Hz) as [Hz1 Hz2].
    destruct (decide (j = S i)) as [->|Hne]; [done|]. apply IH2; [done|lia].
Qed.

(** ** The indicator *)

Lemma fmul_comm (x y : float) : fmul x y = fmul y x.
Proof.
  unfold fmul.
  destruct x as [sx|sx| |sx mx ex], y as [sy|sy| |sy my ey]; simpl;
    try done; try (by rewrite (xorb_comm sx sy)).
  by rewrite (xorb_comm sx sy), (Pos.mul_comm mx my), (Z.add_comm ex ey).
Qed.

Lemma sum_upto_ext (f g : nat -> float) (i : nat) :
  (forall j, (j <= i)%nat -> f j = g j) -> sum_upto f i = sum_upto g i.
Proof.
  induction i as [|i IH]; intros H; simpl.
  - apply H. lia.
  - rewrite IH by (intros j Hj; apply H; lia). f_equal. apply H. lia.
Qed.

Lemma sum_upto_shift (f g : nat -> float) (i : nat) :
  g O = fadd (f O) (f 1%nat) -> (forall j, g (S j) = f (S (S j))) ->
  sum_upto g i = sum_upto f (S i).
Proof.
  intros H0 HS. induction i as [|i IH]; simpl; [done|].
  rewrite IH, HS. done.
Qed.

Lemma cumsum_from_lookup (acc : float) (l : list float) (i : nat) :
  (i < length l)%nat ->
  cumsum_from acc l !! i =
  Some (sum_upto (fun j => match j with
                           | O => acc
                           | S j' => default S754_nan (l !! j')
                           end) (S i)).
Proof.
  revert acc i. induction l as [|x l IH]; intros acc i Hi; simpl in Hi; [lia|].
  destruct i as [|i]; [done|].
  cbn [cumsum_from lookup list_lookup]. rewrite IH by lia. f_equal.
  by apply sum_upto_shift.
Qed.

Lemma cumsum_lookup (l : list float) (i : nat) :
  (i < length l)%nat ->
  cumsum l !! i = Some (sum_upto (fun j => default S754_nan (l !! j)) i).
Proof.
  destruct l as [|x l]; simpl; intros Hi; [lia|].
  destruct i as [|i]; [done|].
  cbn [lookup list_lookup]. rewrite cumsum_from_lookup by lia. f_equal.
  apply sum_upto_ext. by intros [|j] _.
Qed.

(** The value [vwap] gives to the row at position [i]. *)
Lemma vwap_lookup (d : DataFrame) (i : nat) (r : DataRow.t) :
  d !! i = Some r ->
  vwap d !! i =
  Some (r, fdiv (sum_upto (fun j => fmul (volume_at d j) (vwap_at d j)) i)
                (sum_upto (volume_at d) i)).
Proof.
  intros Hr. pose proof (lookup_lt_Some _ _ _ Hr) as Hlt.
  unfold vwap. apply lookup_zip_Some. split; [done|].
  apply lookup_zip_with_Some.
  exists (sum_upto (fun j => fmul (volume_at d j) (vwap_at d j)) i),
    (sum_upto (volume_at d) i).
  split; [reflexivity|]. split.
  - rewrite cumsum_lookup by (by rewrite length_zip_with, !length_fmap; lia).
    f_equal. apply sum_upto_ext. intros j Hj.
    rewrite lookup_zip_with, !list_lookup_fmap.
    unfold volume_at, vwap_at.
    destruct (lookup_lt_is_Some_2 d j ltac:(lia)) as [y ->]. simpl.
    apply fmul_comm.
  - rewrite cumsum_lookup by (by rewrite length_fmap).
    f_equal. apply sum_upto_ext. intros j _.
    by rewrite list_lookup_fmap.
Qed.

Lemma zero_or_nan_fmul (x y : float) :
  is_zero x = true -> is_zero (fmul x y) || is_nan (fmul x y) = true.
Proof. by destruct x, y. Qed.

Lemma zero_or_nan_fadd (x y : float) :
  is_zero x || is_nan x = true -> is_zero y || is_nan y = true ->
  is_zero (fadd x y) || is_nan (fadd x y) = true.
Proof. by destruct x as [[]|[]| |], y as [[]|[]| |]. Qed.

Lemma fdiv_by_zero (x y : float) :
  is_zero y = true ->
  is_nan (fdiv x y) || is_infinity (fdiv x y) = true /\
  is_nan (fdiv x y) = is_zero x || is_nan x.
Proof. by destruct x, y. Qed.

Lemma sum_upto_zero_or_nan (f : nat -> float) (i : nat) :
  (forall j, (j <= i)%nat -> is_zero (f j) || is_nan (f j) = true) ->
  is_zero (sum_upto f i) || is_nan (sum_upto f i) = true.
Proof.
  induction i as [|i IH]; intros H; simpl; [apply H; lia|].
  apply zero_or_nan_fadd; [apply IH; intros j Hj|]; apply H; lia.
Qed.

(** C5: the indicator of the row at position [i] is the running sum of
    [volume * vwap] over positions [0..=i] divided by the running sum of
    [volume] over the same positions, in binary64 and added up left to
    right; [vwap] gives one value per row.  Every publish recomputes it
    from the full series: an iteration that publishes (gate open, store
    not empty) shows and draws [vwap] of the whole store as it is after
    the merge, and an iteration that does not publish leaves what is shown
    and drawn as it was.  For
    volumes 1, 2, 3 and vwaps 10, 20, 30 the last value is the quotient
    [140 / 6], which is also the quotient [70 / 3]: the double
    [6567749456581973 * 2^-48], within half a unit in the last place of
    the rational 70/3. *)
Theorem periodic_vwap_formula :
  (forall (d : DataFrame) (i : nat) (r : DataRow.t),
     d !! i = Some r ->
     vwap d !! i =
     Some (r, fdiv (sum_upto (fun j => fmul (volume_at d j) (vwap_at d j)) i)
                   (sum_upto (volume_at d) i))) /\
  (forall d : DataFrame, length (vwap d) = length d /\ (vwap d).*1 = d) /\
  (forall (c : Candle.t) (s : state),
     if update_graph (on_candle c s) && negb (empty (df (on_candle c s)))
     then disp_df (on_candle c s) = Series (vwap (df (on_candle c s))) /\
          drawn (on_candle c s) =
            drawn s ++ [Series (vwap (df (on_candle c s)))]
     else disp_df (on_candle c s) = disp_df s /\
          drawn (on_candle c s) = drawn s) /\
  (forall d : DataFrame,
     DataRow.volume <$> d = float_of_Z <$> [1; 2; 3] ->
     DataRow.vwap <$> d = float_of_Z <$> [10; 20; 30] ->
     snd <$> last (vwap d) =
       Some (fdiv (float_of_Z (1 * 10 + 2 * 20 + 3 * 30))
                  (float_of_Z (1 + 2 + 3)))) /\
  fdiv (float_of_Z (1 * 10 + 2 * 20 + 3 * 30)) (float_of_Z (1 + 2 + 3)) =
    fdiv (float_of_Z 70) (float_of_Z 3) /\
  fdiv (float_of_Z 70) (float_of_Z 3) =
    S754_finite false 6567749456581973 (-48) /\
  Z.abs (3 * 6567749456581973 - 70 * 2 ^ 48) * 2 <= 3.
Proof.
  split_and!.
  - apply vwap_lookup.
  - intros d. split; [apply length_vwap | apply vwap_rows].
  - intros c s. rewrite (on_candle_drawn c s), (on_candle_disp_df c s).
    by destruct (update_graph (on_candle c s) && _).
  - intros d Hq Hp.
    assert (length d = 3%nat) as Hlen.
    { by rewrite <- (length_fmap DataRow.volume), Hq. }
    destruct d as [|r0 [|r1 [|r2 [|? ?]]]]; try discriminate Hlen.
    rewrite last_lookup, length_vwap.
    change (pred (length [r0; r1; r2])) with 2%nat.
    rewrite (vwap_lookup [r0; r1; r2] 2 r2) by done. simpl. f_equal.
    unfold volume_at, vwap_at. simpl.
    injection Hq as -> -> ->. injection Hp as -> -> ->.
    vm_compute. reflexivity.
  - vm_compute. reflexivity.
  - vm_compute. reflexivity.
  - vm_compute. discriminate.
Qed.

(** At a position where the cumulative volume is zero the division does
    not fail and the indicator is never a finite number.  It is NaN,
    pandas' missing value, exactly when the cumulative [volume * vwap]
    there is zero or NaN, otherwise it is an infinity.  It is NaN whenever
    every volume up to the position is zero, and more generally whenever
    none of them is negative: an infinity needs a negative volume.  The
    recompute as a whole yields one value per row, each given by the same
    quotient, so the other positions are unaffected. *)
Lemma zero_cumulative_volume_not_finite
    (d : DataFrame) (i : nat) (r : DataRow.t) :
  d !! i = Some r ->
  is_zero (sum_upto (volume_at d) i) = true ->
  length (vwap d) = length d /\
  (forall (k : nat) (x : DataRow.t),
     d !! k = Some x ->
     vwap d !! k =
     Some (x, fdiv (sum_upto (fun j => fmul (volume_at d j) (vwap_at d j)) k)
                   (sum_upto (volume_at d) k))) /\
  exists v : float,
    vwap d !! i = Some (r, v) /\
    is_nan v || is_infinity v = true /\
    is_nan v =
      (let n := sum_upto (fun j => fmul (volume_at d j) (vwap_at d j)) i in
       is_zero n || is_nan n) /\
    ((forall j, (j <= i)%nat -> is_zero (volume_at d j) = true) ->
     is_nan v = true) /\
    ((forall j, (j <= i)%nat -> not_negative (volume_at d j) = true) ->
     is_nan v = true).
Proof.
  intros Hr Hz. split; [apply length_vwap|]. split; [apply vwap_lookup|].
  eexists. split; [by apply vwap_lookup|].
  destruct (fdiv_by_zero
              (sum_upto (fun j => fmul (volume_at d j) (vwap_at d j)) i)
              (sum_upto (volume_at d) i) Hz) as [H1 H2].
  assert (Hzero : (forall j, (j <= i)%nat -> is_zero (volume_at d j) = true) ->
                  is_nan (fdiv
                    (sum_upto (fun j => fmul (volume_at d j) (vwap_at d j)) i)
                    (sum_upto (volume_at d) i)) = true).
  { intros Hall. rewrite H2. apply sum_upto_zero_or_nan.
    intros j Hj. by apply zero_or_nan_fmul, Hall. }
  split_and!; [done|done|done|].
  intros Hall. apply Hzero.
  apply (sum_upto_nonneg (volume_at d) i); [|done].
  intros j Hj. by apply not_negative_class, Hall.
Qed.

(** C6: with volumes that are not negative, as a feed reports them, at
    every position where the cumulative volume from the first row up to
    and including that position is zero the indicator is NaN, pandas'
    missing value: the division does not fail and the recompute as a whole
    yields one value per row.  Every position, the ones with positive
    cumulative volume included, gets the same quotient as always, so the
    other positions are unaffected. *)
Theorem zero_cumulative_volume_is_nan
    (d : DataFrame) (i : nat) (r : DataRow.t) :
  d !! i = Some r ->
  (forall j, (j <= i)%nat -> not_negative (volume_at d j) = true) ->
  is_zero (sum_upto (volume_at d) i) = true ->
  length (vwap d) = length d /\
  (exists v : float, vwap d !! i = Some (r, v) /\ is_nan v = true) /\
  (forall (k : nat) (x : DataRow.t),
     d !! k = Some x ->
     vwap d !! k =
     Some (x, fdiv (sum_upto (fun j => fmul (volume_at d j) (vwap_at d j)) k)
                   (sum_upto (volume_at d) k))).
Proof.
  intros Hr Hnn Hz.
  destruct (zero_cumulative_volume_not_finite d i r Hr Hz)
    as (Hlen & Hall & v & Hv & _ & _ & _ & Hnan).
  split_and!; [done| |done]. exists v. split; [done|]. by apply Hnan.
Qed.

(** ** Decode failures and timeouts *)

Lemma data_row_not_coercible (c : Candle.t) :
  py_float (Candle.open c) = None \/ py_float (Candle.high c) = None \/
  py_float (Candle.low c) = None \/ py_float (Candle.close c) = None \/
  py_float (Candle.volume c) = None \/ py_float (Candle.vwap c) = None ->
  data_row c = None.
Proof.
  unfold data_row.
  destruct (fromtimestamp (Candle.time c)); simpl; [|done].
  destruct (py_float (Candle.open c)); simpl; [|done].
  destruct (py_float (Candle.high c)); simpl; [|done].
  destruct (py_float (Candle.low c)); simpl; [|done].
  destruct (py_float (Candle.close c)); simpl; [|done].
  destruct (py_float (Candle.volume c)); simpl; [|done].
  destruct (py_float (Candle.vwap c)); simpl; [|done].
  intros [H|[H|[H|[H|[H|H]]]]]; discriminate H.
Qed.

(** C7, as the code has it: when one of [open], [high], [low], [close],
    [volume], [vwap] is not coercible to a float, [candle_to_dataframe]
    yields the empty frame and prints its message and the candle.  In the
    loop the store is left as it was, [run] is untouched and the loop goes
    on to its next iteration; the two lines are printed whenever the
    decoder is run, that is unless the candle carries the REMOVE flag. *)
Theorem decode_failure_is_discarded (c : Candle.t) :
  py_float (Candle.open c) = None \/ py_float (Candle.high c) = None \/
  py_float (Candle.low c) = None \/ py_float (Candle.close c) = None \/
  py_float (Candle.volume c) = None \/ py_float (Candle.vwap c) = None ->
  candle_to_dataframe c =
    ([], [PrintStr "EXCEPT: candle_to_dataframe"; PrintCandle c]) /\
  forall s : state,
    df (on_candle c s) = df s /\
    run (on_candle c s) = run s /\
    stdout (on_candle c s) =
      stdout s ++
      (if flag_set (Candle.eventFlags c) REMOVE_EVENT then []
       else [PrintStr "EXCEPT: candle_to_dataframe"; PrintCandle c]) /\
    forall rest : list input,
      run s = true ->
      get_candle_async (Poll (Received c) :: rest) s =
      get_candle_async rest (on_candle c s).
Proof.
  intros H. apply data_row_not_coercible in H.
  split; [unfold candle_to_dataframe; by rewrite H|].
  intros s. rewrite on_candle_df, on_candle_run, on_candle_stdout.
  destruct (flag_set (Candle.eventFlags c) REMOVE_EVENT) eqn:E.
  - rewrite store_remove by done. split_and!; try done.
    intros rest Hrun. simpl. by rewrite Hrun.
  - rewrite store_failed by done. split_and!; try done.
    intros rest Hrun. simpl. by rewrite Hrun.
Qed.

Lemma get_candle_async_timeouts (n : nat) (rest : list input) (s : state) :
  run s = true ->
  get_candle_async (replicate n (Poll TimedOut) ++ rest) s =
  get_candle_async rest s.
Proof.
  intros Hrun. induction n as [|n IH]; simpl; [done|]. by rewrite Hrun.
Qed.

(** C8: an iteration that ends in a timeout returns the state it started
    from, so store, gate, displayed frame and drawn frames are the same
    before and after.  A run of [n] timeouts in a live loop leaves the
    state as it was, and the loop then still tests [run] at the top of its
    next iteration: once Quit has been pressed it ends there and closes the
    streamer without handling whatever the streamer would deliver. *)
Theorem timeout_changes_nothing (n : nat) (s : state) :
  run s = true ->
  iteration TimedOut s = s /\
  iterations (replicate n TimedOut) s = s /\
  get_candle_async (replicate n (Poll TimedOut)) s = s /\
  forall (p : poll) (rest : list input),
    get_candle_async (replicate n (Poll TimedOut) ++ Quit :: Poll p :: rest) s =
    close_streamer (quit s).
Proof.
  intros Hrun. split_and!.
  - done.
  - induction n as [|n IH]; [done|]. exact IH.
  - rewrite <- (app_nil_r (replicate n _)).
    by rewrite get_candle_async_timeouts.
  - intros p rest. by rewrite get_candle_async_timeouts.
Qed.

(** ** Diagnostic flags *)

Lemma flag_set_testbit (f k : Z) :
  0 <= k -> flag_set f (2 ^ k) = Z.testbit f k.
Proof.
  intros Hk. unfold flag_set.
  assert (Z.land f (2 ^ k) = if Z.testbit f k then 2 ^ k else 0) as ->.
  { apply Z.bits_inj'. intros n Hn.
    rewrite Z.land_spec, Z.pow2_bits_eqb by done.
    destruct (Z.eqb_spec k n) as [->|Hne].
    - destruct (Z.testbit f n); simpl.
      + by rewrite Z.pow2_bits_true.
      + by rewrite Z.bits_0.
    - rewrite andb_false_r. destruct (Z.testbit f k).
      + by rewrite Z.pow2_bits_false.
      + by rewrite Z.bits_0. }
  destruct (Z.testbit f k); [|done].
  apply negb_true_iff, Z.eqb_neq. pose proof (Z.pow_pos_nonneg 2 k). lia.
Qed.

Lemma same_but_diagnostic_flags (f f' : Z) :
  same_but_diagnostic f f' ->
  flag_set f REMOVE_EVENT = flag_set f' REMOVE_EVENT /\
  flag_set f SNAPSHOT_BEGIN = flag_set f' SNAPSHOT_BEGIN /\
  flag_set f SNAPSHOT_END = flag_set f' SNAPSHOT_END.
Proof.
  intros H.
  change REMOVE_EVENT with (2 ^ 1). change SNAPSHOT_BEGIN with (2 ^ 2).
  change SNAPSHOT_END with (2 ^ 3).
  rewrite !flag_set_testbit by lia.
  split_and!; by apply H.
Qed.

Lemma data_row_with_flags (f' : Z) (c : Candle.t) :
  data_row (with_candle_flags f' c) = DataRow.with_eventFlags f' <$> data_row c.
Proof.
  unfold data_row. simpl.
  destruct (fromtimestamp (Candle.time c)); simpl; [|done].
  destruct (py_float (Candle.open c)); simpl; [|done].
  destruct (py_float (Candle.high c)); simpl; [|done].
  destruct (py_float (Candle.low c)); simpl; [|done].
  destruct (py_float (Candle.close c)); simpl; [|done].
  destruct (py_float (Candle.volume c)); simpl; [|done].
  destruct (py_float (Candle.vwap c)); simpl; [|done].
  destruct (py_float_or_none (Candle.bidVolume c)); simpl; [|done].
  destruct (py_float_or_none (Candle.askVolume c)); simpl; [|done].
  destruct (py_float_or_none (Candle.impVolatility c)); simpl; [|done].
  done.
Qed.

Section SameTime.
Variable R : DataRow.t -> DataRow.t -> Prop.
Hypothesis R_time : forall x y, R x y -> DataRow.time x = DataRow.time y.

Lemma insert_sorted_Forall2 (a a' : DataRow.t) (l l' : DataFrame) :
  R a a' -> Forall2 R l l' ->
  Forall2 R (insert_sorted a l) (insert_sorted a' l').
Proof.
  intros Ha. induction 1 as [|x x' l l' Hx Hl IH]; simpl.
  - by repeat constructor.
  - rewrite <- (R_time _ _ Ha), <- (R_time _ _ Hx).
    destruct (DataRow.time a <=? DataRow.time x); by repeat constructor.
Qed.

Lemma sort_values_Forall2 (l l' : DataFrame) :
  Forall2 R l l' -> Forall2 R (sort_values l) (sort_values l').
Proof.
  induction 1; simpl; [constructor|]. by apply insert_sorted_Forall2.
Qed.
End SameTime.

Lemma merge_Forall2 (R : DataRow.t -> DataRow.t -> Prop)
    (d : DataFrame) (r r' : DataRow.t) :
  (forall x, R x x) -> (forall x y, R x y -> DataRow.time x = DataRow.time y) ->
  R r r' -> Forall2 R (merge d [r]) (merge d [r']).
Proof.
  intros Hrefl Htime Hr. unfold merge.
  apply sort_values_Forall2; [done|].
  rewrite !drop_duplicates_snoc, <- (Htime _ _ Hr).
  apply Forall2_app; [|by repeat constructor].
  by apply Forall_Forall2_diag, Forall_forall.
Qed.

Lemma diagnostic_bits_testbit (n : Z) :
  n <> 0 -> n <> 4 -> n <> 6 -> Z.testbit diagnostic_bits n = false.
Proof.
  intros H0 H4 H6.
  destruct (Z.lt_ge_cases n 0) as [Hneg|Hpos]; [by apply Z.testbit_neg_r|].
  destruct (Z.lt_ge_cases n 7) as [Hlt|Hge].
  - assert (n = 1 \/ n = 2 \/ n = 3 \/ n = 5) as [->|[->|[->| ->]]] by lia;
      reflexivity.
  - apply Z.bits_above_log2; [done|].
    change (Z.log2 diagnostic_bits) with 6. lia.
Qed.

Lemma same_but_diagnostic_toggle (f m : Z) :
  Z.land m (Z.lnot diagnostic_bits) = 0 ->
  same_but_diagnostic f (Z.lxor f m).
Proof.
  intros Hm n H0 H4 H6. rewrite Z.lxor_spec.
  assert (Z.testbit m n = false) as ->; [|by rewrite xorb_false_r].
  destruct (Z.lt_ge_cases n 0) as [Hneg|Hpos]; [by apply Z.testbit_neg_r|].
  apply (f_equal (fun z => Z.testbit z n)) in Hm.
  rewrite Z.land_spec, Z.lnot_spec, diagnostic_bits_testbit, Z.bits_0 in Hm
    by done.
  by rewrite andb_true_r in Hm.
Qed.

(** C9, as the code has it: two candles that differ only in the
    TX_PENDING, SNAPSHOT_SNIP and SNAPSHOT_MODE bits of [eventFlags], taken
    from the same state, give the same gate and the same decision to
    publish, and stores that agree row by row: every row is the same in
    both, except that the merged record itself carries the [eventFlags] of
    its own candle.  Rows agree in every column other than [eventFlags]. *)
Theorem diagnostic_flags_do_not_steer (c : Candle.t) (f' : Z) (s : state) :
  same_but_diagnostic (Candle.eventFlags c) f' ->
  update_graph (on_candle (with_candle_flags f' c) s) =
    update_graph (on_candle c s) /\
  update_graph (on_candle (with_candle_flags f' c) s) &&
    negb (empty (df (on_candle (with_candle_flags f' c) s))) =
    update_graph (on_candle c s) && negb (empty (df (on_candle c s))) /\
  length (drawn (on_candle (with_candle_flags f' c) s)) =
    length (drawn (on_candle c s)) /\
  Forall2 (fun x y => x = y \/
                      (data_row c = Some x /\
                       data_row (with_candle_flags f' c) = Some y))
    (df (on_candle c s)) (df (on_candle (with_candle_flags f' c) s)) /\
  DataRow.with_eventFlags 0 <$> df (on_candle (with_candle_flags f' c) s) =
    DataRow.with_eventFlags 0 <$> df (on_candle c s).
Proof.
  intros H. apply same_but_diagnostic_flags in H as (Hrm & Hb & He).
  set (c' := with_candle_flags f' c).
  change f' with (Candle.eventFlags c') in Hrm, Hb, He.
  assert (Hg : update_graph (on_candle c' s) = update_graph (on_candle c s)).
  { by rewrite !on_candle_update_graph, !gate_spec, Hb, He. }
  assert (HF : Forall2 (fun x y => x = y \/
                          (data_row c = Some x /\ data_row c' = Some y))
                 (df (on_candle c s)) (df (on_candle c' s))).
  { rewrite !on_candle_df.
    pose proof (data_row_with_flags f' c) as Hd. fold c' in Hd.
    destruct (flag_set (Candle.eventFlags c) REMOVE_EVENT) eqn:E.
    - rewrite !store_remove by congruence.
      apply Forall_Forall2_diag, Forall_forall. auto.
    - destruct (data_row c) as [r|] eqn:D; simpl in Hd.
      + rewrite (store_decoded c (df s) r),
          (store_decoded c' (df s) (DataRow.with_eventFlags f' r))
          by congruence.
        simpl. apply merge_Forall2; [auto| |auto].
        intros x y [->|[[= ->] Hy]]; [done|].
        rewrite Hd in Hy. by injection Hy as <-.
      + rewrite !store_failed by congruence.
        apply Forall_Forall2_diag, Forall_forall. auto. }
  assert (He' : empty (df (on_candle c' s)) = empty (df (on_candle c s))).
  { apply Forall2_length in HF.
    by destruct (df (on_candle c s)), (df (on_candle c' s)). }
  split_and!; [done|by rewrite Hg, He'| |done|].
  - rewrite !on_candle_drawn, Hg, He'.
    destruct (_ && _); [|done]. by rewrite !length_app.
  - pose proof (data_row_with_flags f' c) as Hd. fold c' in Hd.
    symmetry. apply list_eq_Forall2, Forall2_fmap.
    eapply Forall2_impl; [exact HF|].
    intros x y [->|[Hx Hy]]; [done|].
    rewrite Hx in Hd. simpl in Hd. rewrite Hy in Hd. by injection Hd as ->.
Qed.

(** C10: a candle with SNAPSHOT_BEGIN and SNAPSHOT_END both set leaves the
    gate Publishable, whatever it was before. *)
Theorem snapshot_end_takes_precedence (c : Candle.t) (s : state) :
  flag_set (Candle.eventFlags c) SNAPSHOT_BEGIN = true ->
  flag_set (Candle.eventFlags c) SNAPSHOT_END = true ->
  update_graph (on_candle c s) = true.
Proof.
  intros _ He. by rewrite on_candle_update_graph, gate_spec, He.
Qed.

(** ** The flag printer *)

#[local] Set Warnings "-clear-no-such-hyp".

Lemma elem_of_if_singleton {A} (b : bool) (x y : A) :
  x ∈ (if b then [y] else []) <-> b = true /\ x = y.
Proof.
  destruct b.
  - rewrite list_elem_of_singleton. naive_solver.
  - split; [by intros ?%elem_of_nil | by intros [? _]].
Qed.

Lemma known_flags_testbit (n : Z) :
  n <> 0 -> n <> 1 -> n <> 2 -> n <> 3 -> n <> 4 -> n <> 6 ->
  Z.testbit known_flags n = false.
Proof.
  intros.
  destruct (Z.lt_ge_cases n 0) as [Hneg|Hpos]; [by apply Z.testbit_neg_r|].
  destruct (Z.lt_ge_cases n 7) as [Hlt|Hge].
  - by replace n with 5 by lia.
  - apply Z.bits_above_log2; [done|].
    change (Z.log2 known_flags) with 6. lia.
Qed.

Lemma land_known_flags (f : Z) :
  Z.land f known_flags = 0 <->
  flag_set f TX_PENDING = false /\ flag_set f REMOVE_EVENT = false /\
  flag_set f SNAPSHOT_BEGIN = false /\ flag_set f SNAPSHOT_END = false /\
  flag_set f SNAPSHOT_SNIP = false /\ flag_set f SNAPSHOT_MODE = false.
Proof.
  change TX_PENDING with (2 ^ 0). change REMOVE_EVENT with (2 ^ 1).
  change SNAPSHOT_BEGIN with (2 ^ 2). change SNAPSHOT_END with (2 ^ 3).
  change SNAPSHOT_SNIP with (2 ^ 4). change SNAPSHOT_MODE with (2 ^ 6).
  rewrite !flag_set_testbit by lia. split.
  - intros H.
    assert (forall n, Z.testbit known_flags n = true ->
                      Z.testbit f n = false) as Hb.
    { intros n Hn. apply (f_equal (fun z => Z.testbit z n)) in H.
      rewrite Z.land_spec, Hn, Z.bits_0, andb_true_r in H. done. }
    split_and!; by apply Hb.
  - intros (H0 & H1 & H2 & H3 & H4 & H6). apply Z.bits_inj'. intros n Hn.
    rewrite Z.land_spec, Z.bits_0.
    destruct (decide (n = 0)) as [->|]; [by rewrite H0|].
    destruct (decide (n = 1)) as [->|]; [by rewrite H1|].
    destruct (decide (n = 2)) as [->|]; [by rewrite H2|].
    destruct (decide (n = 3)) as [->|]; [by rewrite H3|].
    destruct (decide (n = 4)) as [->|]; [by rewrite H4|].
    destruct (decide (n = 6)) as [->|]; [by rewrite H6|].
    by rewrite known_flags_testbit, andb_false_r.
Qed.

Lemma flag_set_land_known (f mask : Z) :
  Z.land known_flags mask = mask ->
  flag_set (Z.land f known_flags) mask = flag_set f mask.
Proof. intros H. unfold flag_set. by rewrite <- Z.land_assoc, H. Qed.

Lemma check_candle_event_flags_elem (c : Candle.t) (name : string) :
  PrintStr name ∈ check_candle_event_flags c <->
  (name = "TX_PENDING" /\ flag_set (Candle.eventFlags c) TX_PENDING = true) \/
  (name = "REMOVE_EVENT" /\
   flag_set (Candle.eventFlags c) REMOVE_EVENT = true) \/
  (name = "SNAPSHOT_BEGIN" /\
   flag_set (Candle.eventFlags c) SNAPSHOT_BEGIN = true) \/
  (name = "SNAPSHOT_END" /\
   flag_set (Candle.eventFlags c) SNAPSHOT_END = true) \/
  (name = "SNAPSHOT_SNIP" /\
   flag_set (Candle.eventFlags c) SNAPSHOT_SNIP = true) \/
  (name = "SNAPSHOT_MODE" /\
   flag_set (Candle.eventFlags c) SNAPSHOT_MODE = true).
Proof.
  unfold check_candle_event_flags. cbv zeta.
  rewrite !elem_of_app, !elem_of_if_singleton. naive_solver.
Qed.

(** X1: [check_candle_event_flags] prints the name of a flag exactly when
    the candle's [eventFlags] has that flag's bit, and prints nothing else;
    it is silent exactly when [eventFlags & 0x5f] is zero, and what it
    prints does not depend on the other bits of [eventFlags] (0x20, 0x80
    and above, the sign). *)
Theorem flag_printer_reports_set_bits (c : Candle.t) :
  (forall name : string,
     PrintStr name ∈ check_candle_event_flags c <->
     exists k : Z,
       (name, k) ∈ [("TX_PENDING", 0); ("REMOVE_EVENT", 1);
                    ("SNAPSHOT_BEGIN", 2); ("SNAPSHOT_END", 3);
                    ("SNAPSHOT_SNIP", 4); ("SNAPSHOT_MODE", 6)] /\
       Z.testbit (Candle.eventFlags c) k = true) /\
  (forall c' : Candle.t, PrintCandle c' ∉ check_candle_event_flags c) /\
  (check_candle_event_flags c = [] <->
   Z.land (Candle.eventFlags c) known_flags = 0) /\
  check_candle_event_flags
    (with_candle_flags (Z.land (Candle.eventFlags c) known_flags) c) =
  check_candle_event_flags c.
Proof.
  split_and!.
  - intros name. rewrite check_candle_event_flags_elem.
    change TX_PENDING with (2 ^ 0). change REMOVE_EVENT with (2 ^ 1).
    change SNAPSHOT_BEGIN with (2 ^ 2). change SNAPSHOT_END with (2 ^ 3).
    change SNAPSHOT_SNIP with (2 ^ 4). change SNAPSHOT_MODE with (2 ^ 6).
    rewrite !flag_set_testbit by lia. split.
    + intros [[-> H]|[[-> H]|[[-> H]|[[-> H]|[[-> H]| [-> H]]]]]];
        eexists; (split; [|exact H]); set_solver.
    + intros (k & Hin & Hk). rewrite !elem_of_cons in Hin.
      destruct Hin as [[= -> ->]|[[= -> ->]|[[= -> ->]|[[= -> ->]|
        [[= -> ->]|[[= -> ->]|[]%elem_of_nil]]]]]]; tauto.
  - intros c'. unfold check_candle_event_flags. cbv zeta.
    rewrite !elem_of_app, !elem_of_if_singleton. naive_solver.
  - rewrite land_known_flags. unfold check_candle_event_flags. cbv zeta.
    destruct (flag_set _ TX_PENDING), (flag_set _ REMOVE_EVENT),
      (flag_set _ SNAPSHOT_BEGIN), (flag_set _ SNAPSHOT_END),
      (flag_set _ SNAPSHOT_SNIP), (flag_set _ SNAPSHOT_MODE);
      simpl; naive_solver.
  - unfold check_candle_event_flags. simpl.
    by rewrite !flag_set_land_known.
Qed.

(** X2: the printer and the loop read the flags alike.  When
    "SNAPSHOT_END" is printed for a candle the loop leaves the gate open
    after it; when "SNAPSHOT_BEGIN" is printed and "SNAPSHOT_END" is not,
    closed; when neither is printed the gate stays as it was; and when
    "REMOVE_EVENT" is printed the store stays as it was. *)
Theorem flag_printer_agrees_with_loop (c : Candle.t) (s : state) :
  (PrintStr "SNAPSHOT_END" ∈ check_candle_event_flags c ->
   update_graph (on_candle c s) = true) /\
  (PrintStr "SNAPSHOT_END" ∉ check_candle_event_flags c ->
   PrintStr "SNAPSHOT_BEGIN" ∈ check_candle_event_flags c ->
   update_graph (on_candle c s) = false) /\
  (PrintStr "SNAPSHOT_END" ∉ check_candle_event_flags c ->
   PrintStr "SNAPSHOT_BEGIN" ∉ check_candle_event_flags c ->
   update_graph (on_candle c s) = update_graph s) /\
  (PrintStr "REMOVE_EVENT" ∈ check_candle_event_flags c ->
   df (on_candle c s) = df s).
Proof.
  rewrite !check_candle_event_flags_elem, on_candle_update_graph, gate_spec,
    on_candle_df.
  destruct (flag_set _ SNAPSHOT_END) eqn:He,
    (flag_set _ SNAPSHOT_BEGIN) eqn:Hb.
  all: split_and!; try naive_solver.
  all: intros [[[=] _]|[[_ Hr]|[[[=] _]|[[[=] _]|[[[=] _]|[[=] _]]]]]].
  all: by rewrite store_remove.
Qed.

(** ** The decoder *)

#[local] Ltac decode_dead :=
  split;
  [ by intros [? [=]]
  | let H := fresh in
    intros H; decompose [and] H;
    repeat match goal with
           | H' : is_Some None |- _ => destruct H' as [? [=]]
           end;
    congruence ].


(** X3: [candle_to_dataframe] yields a row exactly when the timestamp
    converts, each of [open], [high], [low], [close], [volume], [vwap] is
    coercible, and each of [bidVolume], [askVolume], [impVolatility] is
    [None] or coercible.  Then the frame has that one row and nothing is
    printed; otherwise the frame is empty and the message and the candle
    are printed.  So an optional field that is present but not coercible
    discards the whole candle. *)
Theorem decoder_succeeds_iff (c : Candle.t) :
  (is_Some (data_row c) <->
   is_Some (fromtimestamp (Candle.time c)) /\
   is_Some (py_float (Candle.open c)) /\
   is_Some (py_float (Candle.high c)) /\
   is_Some (py_float (Candle.low c)) /\
   is_Some (py_float (Candle.close c)) /\
   is_Some (py_float (Candle.volume c)) /\
   is_Some (py_float (Candle.vwap c)) /\
   Candle.bidVolume c <> PyOther /\
   Candle.askVolume c <> PyOther /\
   Candle.impVolatility c <> PyOther) /\
  (forall r, data_row c = Some r -> candle_to_dataframe c = ([r], [])) /\
  (data_row c = None ->
   candle_to_dataframe c =
     ([], [PrintStr "EXCEPT: candle_to_dataframe"; PrintCandle c])) /\
  (length (fst (candle_to_dataframe c)) <= 1)%nat.
Proof.
  split_and!.
  - unfold data_row.
    destruct (fromtimestamp (Candle.time c)); simpl; [|decode_dead].
    destruct (Candle.open c); simpl; [decode_dead| |decode_dead].
    destruct (Candle.high c); simpl; [decode_dead| |decode_dead].
    destruct (Candle.low c); simpl; [decode_dead| |decode_dead].
    destruct (Candle.close c); simpl; [decode_dead| |decode_dead].
    destruct (Candle.volume c); simpl; [decode_dead| |decode_dead].
    destruct (Candle.vwap c); simpl; [decode_dead| |decode_dead].
    destruct (Candle.bidVolume c); simpl; [| |decode_dead].
    all: destruct (Candle.askVolume c); simpl; [| |decode_dead].
    all: destruct (Candle.impVolatility c); simpl; [| |decode_dead].
    all: split; [intros _; split_and!; (by eexists) || done
                |intros _; by eexists].
  - intros r H. unfold candle_to_dataframe. by rewrite H.
  - intros H. unfold candle_to_dataframe. by rewrite H.
  - unfold candle_to_dataframe. destruct (data_row c); simpl; lia.
Qed.

(** X4: a decoded row carries the candle's own values: symbol, event time,
    flags, index, sequence, count and open interest as they are, [time] as
    converted, each price and volume field as [float] made it; an optional
    field that is [None] stays absent and is not turned into a number. *)
Theorem decoded_row_carries_candle (c : Candle.t) (r : DataRow.t) :
  data_row c = Some r ->
  (DataRow.eventSymbol r = Candle.eventSymbol c /\
   DataRow.eventTime r = Candle.eventTime c /\
   DataRow.eventFlags r = Candle.eventFlags c /\
   DataRow.index r = Candle.index c /\
   DataRow.sequence r = Candle.sequence c /\
   DataRow.count r = Candle.count c /\
   DataRow.openInterest r = Candle.openInterest c) /\
  fromtimestamp (Candle.time c) = Some (DataRow.time r) /\
  (py_float (Candle.open c) = Some (DataRow.open r) /\
   py_float (Candle.high c) = Some (DataRow.high r) /\
   py_float (Candle.low c) = Some (DataRow.low r) /\
   py_float (Candle.close c) = Some (DataRow.close r) /\
   py_float (Candle.volume c) = Some (DataRow.volume r) /\
   py_float (Candle.vwap c) = Some (DataRow.vwap r)) /\
  (DataRow.bidVolume r = None <-> Candle.bidVolume c = PyNone) /\
  (DataRow.askVolume r = None <-> Candle.askVolume c = PyNone) /\
  (DataRow.impVolatility r = None <-> Candle.impVolatility c = PyNone) /\
  (forall x, DataRow.bidVolume r = Some x <->
             Candle.bidVolume c = PyNumber x) /\
  (forall x, DataRow.askVolume r = Some x <->
             Candle.askVolume c = PyNumber x) /\
  (forall x, DataRow.impVolatility r = Some x <->
             Candle.impVolatility c = PyNumber x).
Proof.
  unfold data_row.
  destruct (fromtimestamp (Candle.time c)); simpl; [|done].
  destruct (py_float (Candle.open c)); simpl; [|done].
  destruct (py_float (Candle.high c)); simpl; [|done].
  destruct (py_float (Candle.low c)); simpl; [|done].
  destruct (py_float (Candle.close c)); simpl; [|done].
  destruct (py_float (Candle.volume c)); simpl; [|done].
  destruct (py_float (Candle.vwap c)); simpl; [|done].
  destruct (Candle.bidVolume c), (Candle.askVolume c),
    (Candle.impVolatility c); simpl; intros [= <-]; simpl;
    split_and!; try done; naive_solver.
Qed.

(** ** The store over a whole run *)

Lemma merge_times (d : DataFrame) (r : DataRow.t) (t : Z) :
  t ∈ DataRow.time <$> merge d [r] <->
  t = DataRow.time r \/ t ∈ DataRow.time <$> d.
Proof.
  rewrite merge_Permutation, fmap_cons, elem_of_cons.
  rewrite <- (drop_duplicates_times t d), !list_elem_of_fmap.
  setoid_rewrite list_elem_of_filter.
  destruct (decide (t = DataRow.time r)) as [->|Hne]; [tauto|].
  split; intros [?|(y & -> & Hy)]; try tauto; right; exists y; tauto.
Qed.

Lemma merge_idempotent (d : DataFrame) (r : DataRow.t) :
  merge (merge d [r]) [r] = merge d [r].
Proof.
  apply ascending_unique; try apply merge_ascending.
  rewrite (merge_Permutation (merge d [r])).
  rewrite drop_duplicates_id by apply ascending_NoDup, merge_ascending.
  rewrite (merge_Permutation d r) at 1.
  rewrite filter_cons_False by (intros H; by apply H).
  rewrite list_filter_filter.
  rewrite merge_Permutation. f_equiv.
  by rewrite (list_filter_iff _ (fun x => DataRow.time x <> DataRow.time r))
    by (intros x; tauto).
Qed.

Lemma merge_commute (d : DataFrame) (r1 r2 : DataRow.t) :
  DataRow.time r1 <> DataRow.time r2 ->
  merge (merge d [r1]) [r2] = merge (merge d [r2]) [r1].
Proof.
  intros Hne.
  assert (forall a b : DataRow.t, DataRow.time a <> DataRow.time b ->
            merge (merge d [a]) [b] ≡ₚ
            b :: a :: filter (fun x => DataRow.time x <> DataRow.time a /\
                                       DataRow.time x <> DataRow.time b)
                        (drop_duplicates d)) as Hp.
  { intros a b Hab.
    rewrite (merge_Permutation (merge d [a])).
    rewrite drop_duplicates_id by apply ascending_NoDup, merge_ascending.
    rewrite (merge_Permutation d a).
    rewrite filter_cons_True by done.
    rewrite list_filter_filter.
    by rewrite (list_filter_iff _
                  (fun x => DataRow.time x <> DataRow.time a /\
                            DataRow.time x <> DataRow.time b))
      by (intros x; tauto). }
  apply ascending_unique; try apply merge_ascending.
  rewrite !Hp by congruence. rewrite Permutation_swap.
  by rewrite (list_filter_iff
                (fun x => DataRow.time x <> DataRow.time r2 /\
                          DataRow.time x <> DataRow.time r1)
                (fun x => DataRow.time x <> DataRow.time r1 /\
                          DataRow.time x <> DataRow.time r2))
    by (intros x; tauto).
Qed.

Lemma iteration_df_store (p : poll) (s : state) :
  df (iteration p s) =
  match merged_row p with
  | Some r => merge (df s) [r]
  | None => df s
  end.
Proof.
  destruct p as [c|]; simpl; [|done]. rewrite on_candle_df.
  destruct (flag_set (Candle.eventFlags c) REMOVE_EVENT) eqn:E.
  - by rewrite store_remove.
  - destruct (data_row c) as [r|] eqn:D.
    + by rewrite (store_decoded c (df s) r).
    + by rewrite store_failed.
Qed.

Lemma iterations_df_congr (ps : list poll) (s1 s2 : state) :
  df s1 = df s2 -> df (iterations ps s1) = df (iterations ps s2).
Proof.
  revert s1 s2. induction ps as [|p ps IH]; intros s1 s2 H; [done|].
  change (iterations (p :: ps) ?s) with (iterations ps (iteration p s)).
  apply IH. by rewrite !iteration_df_store, H.
Qed.

Lemma written_keys_cons (p : poll) (ps : list poll) :
  written_keys (p :: ps) =
  match merged_row p with
  | Some r => DataRow.time r :: written_keys ps
  | None => written_keys ps
  end.
Proof. unfold written_keys. simpl. by destruct (merged_row p). Qed.

Lemma iterations_df_Permutation (ps ps' : list poll) (s : state) :
  ps ≡ₚ ps' -> NoDup (written_keys ps) ->
  df (iterations ps s) = df (iterations ps' s).
Proof.
  intros Hp. revert s.
  induction Hp as [|p ps ps' Hp IH|p q ps|ps1 ps2 ps3 H12 IH12 H23 IH23];
    intros s Hnd.
  - done.
  - change (iterations (p :: ?l) s) with (iterations l (iteration p s)).
    apply IH. rewrite written_keys_cons in Hnd.
    destruct (merged_row p); [by apply NoDup_cons in Hnd as [_ ?]|done].
  - change (iterations (q :: p :: ps) s)
      with (iterations ps (iteration p (iteration q s))).
    change (iterations (p :: q :: ps) s)
      with (iterations ps (iteration q (iteration p s))).
    apply iterations_df_congr. rewrite !iteration_df_store.
    rewrite !written_keys_cons in Hnd.
    destruct (merged_row p) as [rp|], (merged_row q) as [rq|]; try done.
    apply merge_commute. apply NoDup_cons in Hnd as [Hnd _].
    rewrite not_elem_of_cons in Hnd. by destruct Hnd.
  - rewrite IH12 by done. apply IH23.
    unfold written_keys in *. by rewrite <- H12.
Qed.

(** X5: a candle received twice in a row leaves the store as it is after
    the first time, whatever the store was. *)
Theorem same_candle_twice (c : Candle.t) (s : state) :
  df (on_candle c (on_candle c s)) = df (on_candle c s).
Proof.
  change (df (iteration (Received c) (iteration (Received c) s)) =
          df (iteration (Received c) s)).
  rewrite !iteration_df_store.
  destruct (merged_row (Received c)) as [r|]; [|done].
  apply merge_idempotent.
Qed.

(** X6: when the candles that get merged carry pairwise different [time]s,
    the store at the end does not depend on the order in which the polls
    came in, whatever else (timeouts, REMOVE candles, candles that do not
    decode) is among them and whatever the store was at the start. *)
Theorem store_independent_of_arrival_order
    (ps ps' : list poll) (s : state) :
  ps ≡ₚ ps' -> NoDup (written_keys ps) ->
  df (iterations ps s) = df (iterations ps' s).
Proof. apply iterations_df_Permutation. Qed.

Lemma iterations_snoc (ps : list poll) (p : poll) (s : state) :
  iterations (ps ++ [p]) s = iteration p (iterations ps s).
Proof. by rewrite iterations_app. Qed.

(** X7: over any run of polls from a store in ascending order, the store
    read as a map is what inserting every merged row under its [time], in
    arrival order, gives: each key holds the last row merged under it, and
    nothing is ever deleted.  From the empty store this starts from the
    empty map. *)
Theorem store_is_fold_of_inserts (ps : list poll) (s : state) :
  ascending (df s) ->
  store_map (df (iterations ps s)) = foldl insert_row (store_map (df s)) ps /\
  (df s = [] ->
   store_map (df (iterations ps s)) = foldl insert_row ∅ ps).
Proof.
  intros Hasc.
  assert (store_map (df (iterations ps s)) =
          foldl insert_row (store_map (df s)) ps) as H.
  { induction ps as [|p ps IH] using rev_ind; [done|].
    rewrite iterations_snoc, foldl_app. simpl. rewrite <- IH.
    rewrite iteration_df_store. unfold insert_row.
    destruct (merged_row p) as [r|]; [|done].
    by apply store_map_merge, iterations_ascending. }
  split; [done|]. intros Hemp. rewrite H. by rewrite Hemp.
Qed.

Lemma iteration_times (p : poll) (s : state) (t : Z) :
  t ∈ DataRow.time <$> df (iteration p s) <->
  t ∈ DataRow.time <$> df s \/ DataRow.time <$> merged_row p = Some t.
Proof.
  rewrite iteration_df_store. destruct (merged_row p) as [r|]; simpl.
  - rewrite merge_times. split; intros [H|H]; auto; [by right; f_equal|].
    left. by injection H.
  - split; [auto|]. by intros [?|[=]].
Qed.

(** X8: the loop never drops a key.  A [time] present in the store stays
    present over every schedule, a poll adds at most its own [time], and
    on a store in ascending order the number of rows never goes down and
    goes up by at most one per iteration. *)
Theorem store_keeps_its_keys (ins : list input) (s : state) (t : Z) :
  t ∈ DataRow.time <$> df s ->
  t ∈ DataRow.time <$> df (get_candle_async ins s) /\
  (forall p : poll,
     t ∈ DataRow.time <$> df (iteration p s) /\
     (forall t', t' ∈ DataRow.time <$> df (iteration p s) ->
        t' ∈ DataRow.time <$> df s \/
        DataRow.time <$> merged_row p = Some t') /\
     (ascending (df s) ->
      (length (df s) <= length (df (iteration p s)) <= S (length (df s)))%nat)).
Proof.
  intros Ht. split.
  - revert s Ht. induction ins as [|[p|] ins IH]; intros s Ht; simpl.
    + done.
    + destruct (run s); [|done]. apply IH, iteration_times. by left.
    + by apply IH.
  - intros p. split_and!.
    + apply iteration_times. by left.
    + intros t'. by rewrite iteration_times.
    + intros Hasc. pose proof (iteration_ascending p s Hasc) as Hasc'.
      apply ascending_NoDup in Hasc, Hasc'.
      rewrite <- !(length_fmap DataRow.time). split.
      * apply submseteq_length, NoDup_submseteq; [done|].
        intros x Hx. apply iteration_times. by left.
      * destruct (merged_row p) as [r|] eqn:E.
        -- change (S (length (DataRow.time <$> df s)))
             with (length (DataRow.time r :: (DataRow.time <$> df s))).
           apply submseteq_length, NoDup_submseteq; [done|].
           intros x [Hx|Hx]%iteration_times; [by right|].
           rewrite E in Hx. injection Hx as <-. by left.
        -- apply Nat.le_le_succ_r, submseteq_length, NoDup_submseteq; [done|].
           intros x [Hx|Hx]%iteration_times; [done|]. by rewrite E in Hx.
Qed.

(** ** The loop over a whole schedule *)

Lemma on_candle_label_quote (c : Candle.t) (s : state) :
  label_quote (on_candle c s) =
  if update_graph (on_candle c s) && negb (empty (df (on_candle c s)))
  then Some (Candle.eventSymbol c,
             (fun x => DataRow.close (fst x)) <$>
               last (vwap (df (on_candle c s))))
  else label_quote s.
Proof.
  rewrite on_candle_update_graph, on_candle_df.
  unfold on_candle. destruct (store c (df s)) as [d out]. simpl.
  by destruct (gate _ _ && negb (empty d)).
Qed.

Lemma on_candle_label_vwap (c : Candle.t) (s : state) :
  label_vwap (on_candle c s) =
  if update_graph (on_candle c s) && negb (empty (df (on_candle c s)))
  then Some (snd <$> last (vwap (df (on_candle c s))))
  else label_vwap s.
Proof.
  rewrite on_candle_update_graph, on_candle_df.
  unfold on_candle. destruct (store c (df s)) as [d out]. simpl.
  by destruct (gate _ _ && negb (empty d)).
Qed.

Lemma on_candle_streamer_closed (c : Candle.t) (s : state) :
  streamer_closed (on_candle c s) = streamer_closed s.
Proof.
  unfold on_candle. destruct (store c (df s)) as [d out]. simpl.
  by destruct (gate _ _ && negb (empty d)).
Qed.

Lemma empty_false (d : DataFrame) : empty d = false <-> d <> [].
Proof. by destruct d. Qed.

Lemma get_candle_async_stopped (ins : list input) (s : state) :
  run s = false ->
  get_candle_async ins s = s \/ get_candle_async ins s = close_streamer s.
Proof.
  intros Hrun. revert s Hrun.
  induction ins as [|[p|] ins IH]; intros s Hrun; simpl.
  - by left.
  - rewrite Hrun. by right.
  - assert (quit s = s) as ->; [|by apply IH].
    destruct s. simpl in Hrun. by rewrite Hrun.
Qed.

Lemma get_candle_async_closed (ins : list input) (s : state) :
  run s = false -> streamer_closed s = true -> get_candle_async ins s = s.
Proof.
  intros Hrun Hcl.
  destruct (get_candle_async_stopped ins s Hrun) as [->| ->]; [done|].
  destruct s. simpl in Hcl. by rewrite Hcl.
Qed.

(** A schedule can be run in pieces: running [a ++ b] is running [b]
    from where [a] ended, also when the loop has already ended within
    [a]. *)
Lemma schedules_compose (a b : list input) (s : state) :
  get_candle_async (a ++ b) s = get_candle_async b (get_candle_async a s).
Proof.
  revert s. induction a as [|[p|] a IH]; intros s; simpl; [done| |done].
  destruct (run s) eqn:Hrun; [done|].
  by rewrite get_candle_async_closed.
Qed.

Lemma get_candle_async_live (ps : list poll) (s : state) :
  run s = true -> get_candle_async (Poll <$> ps) s = iterations ps s.
Proof.
  revert s. induction ps as [|p ps IH]; intros s Hrun; [done|].
  simpl. rewrite Hrun.
  change (iterations (p :: ps) s) with (iterations ps (iteration p s)).
  apply IH. destruct p; simpl; [by rewrite on_candle_run|done].
Qed.

Lemma iteration_run (p : poll) (s : state) : run (iteration p s) = run s.
Proof. destruct p; simpl; [apply on_candle_run|done]. Qed.

Lemma iterations_run (ps : list poll) (s : state) :
  run (iterations ps s) = run s.
Proof.
  revert s. induction ps as [|p ps IH]; intros s; [done|].
  change (iterations (p :: ps) s) with (iterations ps (iteration p s)).
  by rewrite IH, iteration_run.
Qed.

(** X9: of a schedule the loop handles exactly the polls that come before
    the first press of Quit.  Store, gate, displayed frame, drawn frames,
    labels and printed lines at the end are those after these polls;
    whatever the streamer delivers later is never merged, drawn or
    printed.  If the loop is already stopped, nothing of these changes. *)
Theorem polls_after_quit_are_ignored (ins : list input) (s : state) :
  (run s = true ->
   shown (get_candle_async ins s) = shown (iterations (handled ins) s)) /\
  (run s = false -> shown (get_candle_async ins s) = shown s).
Proof.
  assert (Hstop : forall ins s, run s = false ->
                    shown (get_candle_async ins s) = shown s).
  { intros ins' s' Hrun.
    by destruct (get_candle_async_stopped ins' s' Hrun) as [->| ->]. }
  split; [|apply Hstop].
  revert s. induction ins as [|[p|] ins IH]; intros s Hrun; simpl.
  - done.
  - rewrite Hrun.
    change (iterations (p :: ?l) s) with (iterations l (iteration p s)).
    apply IH. by rewrite iteration_run.
  - by rewrite Hstop.
Qed.

Lemma loop_invariant_on_candle (c : Candle.t) (s : state) :
  loop_invariant s -> loop_invariant (on_candle c s).
Proof.
  intros (Hasc & Hlast & (frames & Hdrawn & Hall) & Hcl).
  pose proof (on_candle_ascending c s Hasc) as Hasc'.
  unfold loop_invariant.
  rewrite on_candle_drawn, on_candle_disp_df, on_candle_streamer_closed,
    on_candle_run.
  destruct (update_graph (on_candle c s) && _) eqn:E;
    [|split_and!; try done; by exists frames].
  apply andb_true_iff in E as [_ E].
  apply negb_true_iff, empty_false in E.
  split_and!; [done|by rewrite last_snoc| |done].
  exists (frames ++ [Series (vwap (df (on_candle c s)))]).
  split; [by rewrite Hdrawn|].
  apply Forall_app. split; [done|]. constructor; [|constructor].
  by exists (df (on_candle c s)).
Qed.

Lemma loop_invariant_get_candle_async (ins : list input) (s : state) :
  loop_invariant s -> loop_invariant (get_candle_async ins s).
Proof.
  revert s. induction ins as [|[p|] ins IH]; intros s H; simpl; [done| |].
  - destruct (run s) eqn:Hrun.
    + apply IH. destruct p; [by apply loop_invariant_on_candle|done].
    + destruct H as (? & ? & ? & ?). by split_and!.
  - apply IH. destruct H as (? & ? & ? & ?). by split_and!.
Qed.

(** X10: in every state the loop reaches from its start, the frame in
    [disp_df] is the last one drawn; the first one drawn is the sample
    frame, and it is drawn only there: every frame drawn after it is the
    indicator computed over a non-empty frame whose rows are strictly
    ascending by [time]; and the streamer is closed only once [run] is
    off. *)
Theorem drawn_frames_are_well_formed (ins : list input) :
  last (drawn (get_candle_async ins init)) =
    Some (disp_df (get_candle_async ins init)) /\
  (exists frames : list frame,
     drawn (get_candle_async ins init) = SampleFrame :: frames /\
     Forall published_frame frames) /\
  (streamer_closed (get_candle_async ins init) = true ->
   run (get_candle_async ins init) = false).
Proof.
  assert (loop_invariant init) as Hinit.
  { split_and!; [constructor|done| |done]. by exists []. }
  by destruct (loop_invariant_get_candle_async ins init Hinit)
    as (_ & Hlast & Hall & Hcl).
Qed.

Lemma iteration_grows (p : poll) (s : state) :
  drawn s `prefix_of` drawn (iteration p s) /\
  stdout s `prefix_of` stdout (iteration p s) /\
  (length (drawn (iteration p s)) <= S (length (drawn s)))%nat.
Proof.
  destruct p as [c|]; simpl; [|split_and!; [done..|lia]].
  rewrite on_candle_drawn, on_candle_stdout.
  split_and!; [|by apply prefix_app_r|].
  - destruct (_ && _); [by apply prefix_app_r|done].
  - destruct (_ && _); [rewrite length_app; simpl|]; lia.
Qed.

(** What has been drawn and what has been printed only grow: over
    every schedule the frames drawn before are a prefix of the frames
    drawn after, and likewise the printed lines.  One iteration draws at
    most one frame, and none on a timeout. *)
Lemma output_only_grows (ins : list input) (s : state) :
  drawn s `prefix_of` drawn (get_candle_async ins s) /\
  stdout s `prefix_of` stdout (get_candle_async ins s) /\
  (forall p : poll,
     (length (drawn (iteration p s)) <= S (length (drawn s)))%nat) /\
  drawn (iteration TimedOut s) = drawn s.
Proof.
  split_and!; [| |intros p; apply iteration_grows|done].
  - revert s. induction ins as [|[p|] ins IH]; intros s; simpl; [done| |].
    + destruct (run s); [|done].
      etrans; [|apply IH]. apply iteration_grows.
    + apply (IH (quit s)).
  - revert s. induction ins as [|[p|] ins IH]; intros s; simpl; [done| |].
    + destruct (run s); [|done].
      etrans; [|apply IH]. apply iteration_grows.
    + apply (IH (quit s)).
Qed.

(** X11: once the gate is open and the store is not empty, every candle
    without SNAPSHOT_BEGIN redraws, also one that is not merged (REMOVE
    flag, decode failure): the frame drawn is the indicator over the store
    as it then is, and the quote label takes the symbol of that candle. *)
Theorem open_gate_redraws_on_every_candle (c : Candle.t) (s : state) :
  update_graph s = true -> df s <> [] ->
  flag_set (Candle.eventFlags c) SNAPSHOT_BEGIN = false ->
  drawn (on_candle c s) = drawn s ++ [Series (vwap (df (on_candle c s)))] /\
  (merged_row (Received c) = None ->
   drawn (on_candle c s) = drawn s ++ [Series (vwap (df s))]) /\
  fst <$> label_quote (on_candle c s) = Some (Candle.eventSymbol c).
Proof.
  intros Hg Hne Hb.
  assert (update_graph (on_candle c s) = true) as Hg'.
  { rewrite on_candle_update_graph, gate_spec, Hb, Hg.
    by destruct (flag_set _ SNAPSHOT_END). }
  assert (df (on_candle c s) <> []) as Hne'.
  { change (on_candle c s) with (iteration (Received c) s).
    rewrite iteration_df_store. destruct (merged_row _) as [r|]; [|done].
    intros H. pose proof (merge_Permutation (df s) r) as Hp.
    rewrite H in Hp. by apply Permutation_nil_cons in Hp. }
  apply empty_false in Hne'.
  rewrite on_candle_drawn, on_candle_label_quote, Hg', Hne'. simpl.
  split_and!; [done| |done].
  intros Hm. change (merged_row (Received c) = None) in Hm.
  change (on_candle c s) with (iteration (Received c) s).
  by rewrite iteration_df_store, Hm.
Qed.

Lemma ascending_last (d : DataFrame) (x : DataRow.t) :
  ascending d -> last d = Some x ->
  forall y, y ∈ d -> DataRow.time y <= DataRow.time x.
Proof.
  intros Hasc [l ->]%last_Some y Hy.
  apply StronglySorted_app in Hasc as (Hlt & _ & _).
  apply elem_of_app in Hy as [Hy|Hy].
  - specialize (Hlt y x Hy). unfold time_lt in Hlt.
    assert (x ∈ [x]) as Hx by set_solver. specialize (Hlt Hx). lia.
  - apply list_elem_of_singleton in Hy as ->. lia.
Qed.

Lemma last_vwap (d : DataFrame) (x : DataRow.t) :
  last d = Some x -> exists v, last (vwap d) = Some (x, v).
Proof.
  intros H. rewrite last_lookup in H.
  eexists. rewrite last_lookup, length_vwap. by apply vwap_lookup.
Qed.

(** X12: when an iteration on a store in ascending order publishes, the
    quote label shows the [close], and the vwap label the indicator, of
    the row with the greatest [time] in the store, which need not be the
    candle just received; when it does not publish, both labels keep what
    they showed. *)
Theorem labels_show_latest_row (c : Candle.t) (s : state) :
  ascending (df s) ->
  (update_graph (on_candle c s) && negb (empty (df (on_candle c s))) = true ->
   exists (x : DataRow.t) (v : float),
     x ∈ df (on_candle c s) /\
     (forall y, y ∈ df (on_candle c s) -> DataRow.time y <= DataRow.time x) /\
     last (vwap (df (on_candle c s))) = Some (x, v) /\
     label_quote (on_candle c s) =
       Some (Candle.eventSymbol c, Some (DataRow.close x)) /\
     label_vwap (on_candle c s) = Some (Some v)) /\
  (update_graph (on_candle c s) && negb (empty (df (on_candle c s))) = false ->
   label_quote (on_candle c s) = label_quote s /\
   label_vwap (on_candle c s) = label_vwap s).
Proof.
  intros Hasc. pose proof (on_candle_ascending c s Hasc) as Hasc'.
  rewrite on_candle_label_quote, on_candle_label_vwap.
  split; intros E; rewrite E; [|done].
  apply andb_true_iff in E as [_ E].
  apply negb_true_iff, empty_false in E.
  destruct (last (df (on_candle c s))) as [x|] eqn:Hl;
    [|by apply last_None in Hl].
  destruct (last_vwap _ _ Hl) as [v Hv].
  exists x, v. rewrite Hv. split_and!; try done.
  - by apply last_Some_elem_of.
  - by apply ascending_last.
Qed.

(** ** More on the indicator *)

Lemma volume_at_app (d d' : DataFrame) (j : nat) :
  (j < length d)%nat ->
  volume_at (d ++ d') j = volume_at d j /\ vwap_at (d ++ d') j = vwap_at d j.
Proof.
  intros Hj. unfold volume_at, vwap_at. by rewrite lookup_app_l.
Qed.

Lemma vwap_app_lookup (d d' : DataFrame) (i : nat) :
  (i < length d)%nat -> vwap (d ++ d') !! i = vwap d !! i.
Proof.
  intros Hi. destruct (lookup_lt_is_Some_2 d i Hi) as [r Hr].
  rewrite (vwap_lookup d i r Hr).
  rewrite (vwap_lookup (d ++ d') i r) by by rewrite lookup_app_l.
  do 3 f_equal; apply sum_upto_ext; intros j Hj;
    destruct (volume_at_app d d' j) as [Hv Hw]; try lia; by rewrite ?Hv, ?Hw.
Qed.

(** X13: rows appended after a frame do not change the indicator of the
    frame's own rows.  In the loop: a candle whose [time] is greater than
    every [time] in the store is put last, and the indicator of every row
    that was there before is what it was. *)
Theorem later_candle_keeps_earlier_indicator :
  (forall d d' : DataFrame, take (length d) (vwap (d ++ d')) = vwap d) /\
  (forall (c : Candle.t) (r : DataRow.t) (s : state),
     ascending (df s) ->
     merged_row (Received c) = Some r ->
     Forall (fun x => DataRow.time x < DataRow.time r) (df s) ->
     df (on_candle c s) = df s ++ [r] /\
     take (length (df s)) (vwap (df (on_candle c s))) = vwap (df s)).
Proof.
  assert (Htake : forall d d' : DataFrame,
            take (length d) (vwap (d ++ d')) = vwap d).
  { intros d d'. apply list_eq. intros i.
    destruct (Nat.lt_ge_cases i (length d)) as [Hi|Hi].
    - rewrite lookup_take_lt by done. by apply vwap_app_lookup.
    - rewrite lookup_take_ge by done. symmetry.
      apply lookup_ge_None_2. by rewrite length_vwap. }
  split; [done|]. intros c r s Hasc Hm Hall.
  assert (df (on_candle c s) = df s ++ [r]) as ->; [|by split].
  change (on_candle c s) with (iteration (Received c) s).
  rewrite iteration_df_store, Hm. by apply merge_last.
Qed.

Lemma is_nan_fadd (x y : float) :
  is_nan x || is_nan y = true -> is_nan (fadd x y) = true.
Proof. by destruct x as [[]|[]| |], y as [[]|[]| |]. Qed.

Lemma is_nan_fmul (x y : float) :
  is_nan x || is_nan y = true -> is_nan (fmul x y) = true.
Proof. by destruct x, y. Qed.

Lemma is_nan_fdiv (x y : float) :
  is_nan x || is_nan y = true -> is_nan (fdiv x y) = true.
Proof. by destruct x, y. Qed.

Lemma sum_upto_nan (f : nat -> float) (k i : nat) :
  (k <= i)%nat -> is_nan (f k) = true -> is_nan (sum_upto f i) = true.
Proof.
  intros Hk Hn. induction i as [|i IH]; simpl.
  - by replace k with O in Hn by lia.
  - apply is_nan_fadd. destruct (decide (k = S i)) as [->|Hne].
    + by rewrite Hn, orb_true_r.
    + rewrite IH by lia. done.
Qed.

(** X14: a NaN spreads.  When the [volume] or the [vwap] of the row at
    position [k] is NaN (a value [float] accepts, so such a candle is
    decoded), the indicator is NaN at [k] and at every later position. *)
Theorem nan_row_blanks_the_rest (d : DataFrame) (k i : nat) (r : DataRow.t) :
  d !! i = Some r -> (k <= i)%nat ->
  is_nan (volume_at d k) || is_nan (vwap_at d k) = true ->
  py_float (PyNumber S754_nan) = Some S754_nan /\
  exists v : float, vwap d !! i = Some (r, v) /\ is_nan v = true.
Proof.
  intros Hr Hk Hn. split; [done|].
  eexists. split; [by apply vwap_lookup|].
  apply is_nan_fdiv.
  rewrite (sum_upto_nan (fun j => fmul (volume_at d j) (vwap_at d j)) k i)
    by (by try apply is_nan_fmul).
  done.
Qed.

(** ** The heartbeat *)

Lemma rotate_step (l : list Z) (m : nat) (x : Z) :
  l !! m = Some x ->
  drop (S m) l ++ take m l ++ [x] = rotate (S m) l /\
  drop m l = x :: drop (S m) l.
Proof.
  intros Hx. pose proof (lookup_lt_Some _ _ _ Hx) as Hlt.
  split; [|by apply drop_S].
  rewrite <- take_S_r by done. unfold rotate.
  destruct (decide (S m = length l)) as [Heq|Hne].
  - rewrite Heq, Nat.Div0.mod_same.
    by rewrite drop_all, firstn_all, drop_0, app_nil_r.
  - by rewrite Nat.mod_small by lia.
Qed.

Lemma beat_rotate (a : list Z) (k : nat) (lbl : list Z) :
  a <> [] ->
  beat (mkTicker lbl (rotate k a)) =
  Some (mkTicker (rotate k a) (rotate (S k) a)).
Proof.
  intros Ha.
  assert (0 < length a)%nat as Hlen by (destruct a; simpl; [done|lia]).
  pose proof (Nat.mod_upper_bound k (length a) ltac:(lia)) as Hm.
  destruct (lookup_lt_is_Some_2 a _ Hm) as [x Hx].
  destruct (rotate_step a _ x Hx) as [H1 H2].
  assert (rotate k a =
          x :: (drop (S (k `mod` length a)) a ++ take (k `mod` length a) a))
    as Hrot by (unfold rotate; by rewrite H2).
  assert (rotate (S (k `mod` length a)) a = rotate (S k) a) as Hmod.
  { unfold rotate. replace (S k) with (k + 1)%nat by lia.
    rewrite <- (Nat.Div0.add_mod_idemp_l k 1).
    by replace (k `mod` length a + 1)%nat with (S (k `mod` length a))
      by lia. }
  unfold beat. cbn [animation]. rewrite Hrot at 1.
  rewrite <- Hmod, <- H1, <- app_assoc. done.
Qed.

Lemma rotate_0 (a : list Z) : rotate 0 a = a.
Proof.
  unfold rotate. rewrite Nat.Div0.mod_0_l. by rewrite drop_0, app_nil_r.
Qed.

Lemma beats_rotate (a : list Z) (k j : nat) (lbl : list Z) :
  a <> [] ->
  beats (S k) (mkTicker lbl (rotate j a)) =
  Some (mkTicker (rotate (k + j) a) (rotate (S (k + j)) a)).
Proof.
  intros Ha. revert j lbl. induction k as [|k IH]; intros j lbl.
  - simpl. by rewrite beat_rotate.
  - change (beats (S (S k)) ?t) with (t' ← beat t; beats (S k) t').
    rewrite beat_rotate by done.
    change (Some ?x ≫= ?f) with (f x). cbv beta. rewrite IH.
    by replace (k + S j)%nat with (S k + j)%nat by lia.
Qed.

(** X15: each pass of the heartbeat shows the animation and moves its first
    character to the end.  From a non-empty animation no pass fails, and
    after [k + 1] passes the label shows the animation rotated by [k] and
    the animation is rotated by [k + 1]; so the length never changes and
    the label repeats with the length of the animation as its period.  On
    the empty animation the first pass raises. *)
Theorem heartbeat_rotates (t : ticker) (k : nat) :
  animation t <> [] ->
  beats (S k) t =
    Some (mkTicker (rotate k (animation t)) (rotate (S k) (animation t))) /\
  rotate (k + length (animation t)) (animation t) = rotate k (animation t) /\
  length (rotate k (animation t)) = length (animation t) /\
  beat (mkTicker (label t) []) = None.
Proof.
  intros Ha. split_and!.
  - destruct t as [lbl a]. simpl in *.
    pose proof (beats_rotate a k 0 lbl Ha) as H.
    by rewrite rotate_0, Nat.add_0_r in H.
  - unfold rotate.
    by rewrite <- Nat.Div0.add_mod_idemp_r, Nat.Div0.mod_same, Nat.add_0_r.
  - apply length_rotate.
  - done.
Qed.

Lemma display_stopped (evs : list event) (s : state) (t : ticker) :
  run s = false ->
  display evs s t = Some (get_candle_async (core_inputs evs) s, t).
Proof.
  revert s. induction evs as [|[|i] evs IH]; intros s Hrun.
  - done.
  - simpl. rewrite Hrun. by apply IH.
  - change (display (Core i :: evs) s t)
      with (display evs (get_candle_async [i] s) t).
    change (core_inputs (Core i :: evs)) with ([i] ++ core_inputs evs).
    rewrite schedules_compose. apply IH.
    destruct i; simpl; [by rewrite Hrun|done].
Qed.

(** X16: in [display] the two tasks do not get in each other's way.  Over
    every interleaving, with a non-empty animation and [run] set at the
    start, nothing raises; the poller ends in the state it reaches on its
    own inputs alone; and the heartbeat makes exactly the passes scheduled
    before the first press of Quit, and none after. *)
Theorem display_interleaves (evs : list event) (s : state) (t : ticker) :
  animation t <> [] -> run s = true ->
  exists t' : ticker,
    display evs s t = Some (get_candle_async (core_inputs evs) s, t') /\
    beats (live_beats evs) t = Some t' /\
    animation t' <> [].
Proof.
  revert s t. induction evs as [|[|[p|]] evs IH]; intros s t Ha Hrun.
  - by exists t.
  - simpl. rewrite Hrun. destruct t as [lbl a]. simpl in Ha.
    destruct a as [|c rest]; [done|]. simpl.
    destruct (IH s (mkTicker (c :: rest) (rest ++ [c])))
      as (t' & H1 & H2 & H3); [by destruct rest|done|].
    by exists t'.
  - change (display (Core (Poll p) :: evs) s t)
      with (display evs (get_candle_async [Poll p] s) t).
    change (core_inputs (Core (Poll p) :: evs))
      with ([Poll p] ++ core_inputs evs).
    rewrite schedules_compose.
    assert (get_candle_async [Poll p] s = iteration p s) as ->
      by (simpl; by rewrite Hrun).
    destruct (IH (iteration p s) t) as (t' & H1 & H2 & H3);
      [done|by rewrite iteration_run|].
    by exists t'.
  - change (display (Core Quit :: evs) s t)
      with (display evs (quit s) t).
    change (core_inputs (Core Quit :: evs)) with (Quit :: core_inputs evs).
    exists t. by rewrite display_stopped.
Qed.

(** ** The configuration file *)

(** X17: [read_config] on a document that is a dict returns what the dict
    holds under "username" and "password" and prints nothing: an entry put
    under one of the two keys is what comes back, a missing key comes back
    as [None], and entries under other keys make no difference. *)
Theorem read_config_returns_entries
    (m : gmap string json) (u p v : json) (k : string) :
  k <> "username" -> k <> "password" ->
  read_config (Parsed (JDict (<["username" := u]> (<["password" := p]> m)))) =
    (Returned u p, []) /\
  read_config (Parsed (JDict (<[k := v]> m))) =
    read_config (Parsed (JDict m)) /\
  read_config (Parsed (JDict (delete "username" m))) =
    (Returned JNull (dict_get m "password"), []) /\
  read_config (Parsed (JDict ∅)) = (Returned JNull JNull, []).
Proof.
  intros Hu Hp. unfold read_config, dict_get. split_and!.
  - by rewrite lookup_insert_eq, lookup_insert_ne, lookup_insert_eq.
  - by rewrite !lookup_insert_ne.
  - by rewrite lookup_delete_eq, lookup_delete_ne.
  - done.
Qed.

(** X18: how [read_config] fails.  A missing file and a file that is not
    JSON both give [(None, None)] and one printed line each.  Nothing else
    is caught: when [open] or [json.load] raise any other exception it
    escapes, and so does the [AttributeError] of [config.get] on a
    document that is not a dict (a list, a string, a number, [null]);
    neither prints.  So [(None, None)] comes back exactly for a missing
    file, malformed JSON, or a dict with neither entry set; an exception
    escapes exactly for an unreadable file or a document that is not a
    dict; and a line is printed exactly for a missing file or malformed
    JSON. *)
Theorem read_config_failures (f : config_file) :
  (fst (read_config f) = Returned JNull JNull <->
   f = Missing \/ f = Malformed \/
   exists m, f = Parsed (JDict m) /\
             (m !! "username" = None \/ m !! "username" = Some JNull) /\
             (m !! "password" = None \/ m !! "password" = Some JNull)) /\
  (fst (read_config f) = AttributeError <->
   exists v, f = Parsed v /\ forall m, v <> JDict m) /\
  (fst (read_config f) = OtherError <-> f = Unreadable) /\
  ((exists u p, fst (read_config f) = Returned u p) <->
   f = Missing \/ f = Malformed \/ exists m, f = Parsed (JDict m)) /\
  (snd (read_config f) = [] <-> f = Unreadable \/ exists v, f = Parsed v) /\
  (snd (read_config f) = [PrintStr "Config file not found."] <->
   f = Missing) /\
  (snd (read_config f) =
     [PrintStr "Error decoding JSON from the config file."] <->
   f = Malformed).
Proof.
  split_and!.
  - destruct f as [| | |[]]; simpl; try naive_solver.
    unfold dict_get. split.
    + intros [= Hu Hp]. right. right. eexists. split; [done|].
      destruct (m !! "username") as [[]|], (m !! "password") as [[]|];
        naive_solver.
    + intros [?|[?|(m' & [= <-] & [-> | ->] & [-> | ->])]]; done.
  - destruct f as [| | |[]]; simpl; naive_solver.
  - destruct f as [| | |[]]; simpl; naive_solver.
  - destruct f as [| | |[]]; simpl; naive_solver.
  - destruct f as [| | |[]]; simpl; naive_solver.
  - destruct f as [| | |[]]; simpl; naive_solver.
  - destruct f as [| | |[]]; simpl; naive_solver.
Qed.

End Streamer.

(** ** Instances on sample data *)

Lemma remove_event_leaves_store_witness :
  store utc (sample_candle 2 1000 5 1 5) [sample_row 0 1000 4 1 4] =
    ([sample_row 0 1000 4 1 4], []) /\
  store_map
    (df (on_candle utc (sample_candle 2 1000 5 1 5)
           (on_candle utc (sample_candle 0 1000 4 1 4) init)))
    !! 1000000 = Some (sample_row 0 1000 4 1 4).
Proof.
  destruct (remove_event_leaves_store utc (sample_candle 2 1000 5 1 5)
              (on_candle utc (sample_candle 0 1000 4 1 4) init))
    as (H1 & H2 & H3); [reflexivity|].
  split; [exact H1|]. rewrite H3. reflexivity.
Defined.

(** C1 as stated fails: a REMOVE-flagged record at a stored [time] does not
    delete the entry. *)
Lemma remove_event_counterexample :
  flag_set (Candle.eventFlags (sample_candle 2 1000 5 1 5)) REMOVE_EVENT =
    true /\
  data_row utc (sample_candle 2 1000 5 1 5) = Some (sample_row 2 1000 5 1 5) /\
  DataRow.time (sample_row 2 1000 5 1 5) = 1000000 /\
  df (on_candle utc (sample_candle 0 1000 4 1 4) init) =
    [sample_row 0 1000 4 1 4] /\
  df (on_candle utc (sample_candle 2 1000 5 1 5)
        (on_candle utc (sample_candle 0 1000 4 1 4) init)) =
    [sample_row 0 1000 4 1 4] /\
  store_map
    (df (on_candle utc (sample_candle 2 1000 5 1 5)
           (on_candle utc (sample_candle 0 1000 4 1 4) init)))
    !! 1000000 = Some (sample_row 0 1000 4 1 4).
Proof. by split_and!. Qed.

Lemma merge_inserts_or_overwrites_witness :
  store_map
    (df (on_candle utc (sample_candle 0 1000 5 1 5)
           (on_candle utc (sample_candle 0 1000 4 1 4) init))) =
    <[1000000 := sample_row 0 1000 5 1 5]>
      (store_map (df (on_candle utc (sample_candle 0 1000 4 1 4) init))) /\
  rows_at 1000000
    (df (iterations utc
           ([Received (sample_candle 0 2000 7 1 7)] ++
            Received (sample_candle 0 1000 5 1 5) ::
            [Received (sample_candle 0 500 3 1 3); TimedOut])
           (on_candle utc (sample_candle 0 1000 4 1 4) init))) =
    [sample_row 0 1000 5 1 5].
Proof.
  destruct (merge_inserts_or_overwrites utc (sample_candle 0 1000 5 1 5)
              (sample_row 0 1000 5 1 5)
              (on_candle utc (sample_candle 0 1000 4 1 4) init))
    as (H1 & _ & _ & H4).
  - change (ascending [sample_row 0 1000 4 1 4]). repeat constructor.
  - reflexivity.
  - reflexivity.
  - split; [exact H1|]. apply H4. repeat constructor.
Defined.

Lemma snapshot_gate_drives_publish_witness :
  (drawn (on_candle utc (sample_candle 4 1000 5 1 10) init) = [SampleFrame] /\
   drawn (on_candle utc (sample_candle 0 2000 5 2 20)
            (on_candle utc (sample_candle 4 1000 5 1 10) init)) =
     [SampleFrame] /\
   drawn (on_candle utc (sample_candle 8 3000 5 3 30)
            (on_candle utc (sample_candle 0 2000 5 2 20)
               (on_candle utc (sample_candle 4 1000 5 1 10) init))) =
     [SampleFrame;
      Series (vwap [sample_row 4 1000 5 1 10; sample_row 0 2000 5 2 20;
                    sample_row 8 3000 5 3 30])]) /\
  update_graph
    (iterations utc
       [Received (sample_candle 0 2000 5 2 20); TimedOut;
        Received (sample_candle 1 3000 5 3 30)]
       (on_candle utc (sample_candle 4 1000 5 1 10) init)) = false.
Proof.
  destruct (snapshot_gate_drives_publish utc) as (_ & _ & _ & _ & Hseq & Hkeep).
  split.
  - destruct (Hseq (sample_candle 4 1000 5 1 10) (sample_candle 0 2000 5 2 20)
                (sample_candle 8 3000 5 3 30)
                (sample_row 4 1000 5 1 10) (sample_row 0 2000 5 2 20)
                (sample_row 8 3000 5 3 30) init)
      as (H1 & H2 & H3 & _); try reflexivity.
    split; [exact H1|]. split; [exact H2|exact H3].
  - apply Hkeep; try reflexivity. repeat constructor.
Defined.

Lemma periodic_vwap_formula_witness :
  disp_df (on_candle utc (sample_candle 8 2000 5 2 20)
             (on_candle utc (sample_candle 4 1000 5 1 10) init)) =
    Series (vwap [sample_row 4 1000 5 1 10; sample_row 8 2000 5 2 20]) /\
  snd <$> last (vwap [sample_row 0 1000 5 1 10; sample_row 0 2000 5 2 20;
                      sample_row 0 3000 5 3 30]) =
    Some (fdiv (float_of_Z 140) (float_of_Z 6)) /\
  vwap [sample_row 0 1000 5 1 10; sample_row 0 2000 5 2 20;
        sample_row 0 3000 5 3 30] !! 2%nat =
    Some (sample_row 0 3000 5 3 30, S754_finite false 6567749456581973 (-48)).
Proof.
  destruct (periodic_vwap_formula utc) as (Hat & _ & Hpub & Hlast & _).
  split; [|split].
  - exact (proj1 (Hpub (sample_candle 8 2000 5 2 20)
                    (on_candle utc (sample_candle 4 1000 5 1 10) init))).
  - apply Hlast; reflexivity.
  - rewrite (Hat _ 2%nat (sample_row 0 3000 5 3 30)) by reflexivity.
    vm_compute. reflexivity.
Defined.

(** Why the volumes must not be negative: with volumes 1 and -1 the
    cumulative volume at the second row is zero and the indicator there is
    minus infinity. *)
Lemma negative_volume_gives_infinity :
  is_zero
    (sum_upto
       (volume_at [sample_row 0 1000 5 1 10; sample_row 0 2000 5 (-1) 20])
       1) = true /\
  snd <$> vwap [sample_row 0 1000 5 1 10; sample_row 0 2000 5 (-1) 20]
    !! 1%nat = Some (S754_infinity true) /\
  is_nan (S754_infinity true) = false.
Proof. vm_compute. by split_and!. Qed.

Lemma zero_cumulative_volume_is_nan_witness :
  (exists v : float,
     vwap [sample_row 0 1000 5 0 10; sample_row 0 2000 5 0 20;
           sample_row 0 3000 5 2 30] !! 1%nat =
       Some (sample_row 0 2000 5 0 20, v) /\
     is_nan v = true) /\
  snd <$> vwap [sample_row 0 1000 5 0 10; sample_row 0 2000 5 0 20;
                sample_row 0 3000 5 2 30] !! 2%nat =
    Some (float_of_Z 30).
Proof.
  destruct (zero_cumulative_volume_is_nan
              [sample_row 0 1000 5 0 10; sample_row 0 2000 5 0 20;
               sample_row 0 3000 5 2 30] 1
              (sample_row 0 2000 5 0 20))
    as (_ & Hnan & Hall).
  - reflexivity.
  - intros [|[|j]] Hj; [reflexivity..|lia].
  - reflexivity.
  - split; [exact Hnan|].
    rewrite (Hall 2%nat (sample_row 0 3000 5 2 30)) by reflexivity.
    vm_compute. reflexivity.
Defined.

Lemma decode_failure_is_discarded_witness :
  candle_to_dataframe utc (undecodable_candle 0 1000) =
    ([], [PrintStr "EXCEPT: candle_to_dataframe";
          PrintCandle (undecodable_candle 0 1000)]) /\
  df (on_candle utc (undecodable_candle 0 1000)
        (on_candle utc (sample_candle 0 1000 4 1 4) init)) =
    [sample_row 0 1000 4 1 4].
Proof.
  destruct (decode_failure_is_discarded utc (undecodable_candle 0 1000))
    as (H1 & H2); [by left|].
  split; [exact H1|].
  destruct (H2 (on_candle utc (sample_candle 0 1000 4 1 4) init)) as (H3 & _).
  exact H3.
Defined.

(** C7 as stated fails: a candle with the REMOVE flag and a field that is
    not coercible is skipped before the decoder runs, so nothing is
    printed for it. *)
Lemma decode_failure_counterexample :
  py_float (Candle.open (undecodable_candle 2 1000)) = None /\
  flag_set (Candle.eventFlags (undecodable_candle 2 1000)) REMOVE_EVENT =
    true /\
  stdout (on_candle utc (undecodable_candle 2 1000) init) = stdout init /\
  stdout init = [] /\
  stdout (on_candle utc (undecodable_candle 0 1000) init) =
    [PrintStr "EXCEPT: candle_to_dataframe";
     PrintCandle (undecodable_candle 0 1000)].
Proof. by split_and!. Qed.

Lemma timeout_changes_nothing_witness :
  get_candle_async utc (replicate 3 (Poll TimedOut)) init = init /\
  get_candle_async utc
    (replicate 3 (Poll TimedOut) ++
     [Quit; Poll (Received (sample_candle 0 1000 4 1 4))]) init =
    close_streamer (quit init).
Proof.
  destruct (timeout_changes_nothing utc 3 init) as (_ & _ & H3 & H4);
    [reflexivity|].
  split; [exact H3|]. apply H4.
Defined.

(** C9 as stated fails: the stored row keeps the [eventFlags] of its
    candle, so the two stores differ in that column. *)
Lemma diagnostic_flags_counterexample :
  same_but_diagnostic 0 diagnostic_bits /\
  DataRow.eventFlags <$> df (on_candle utc (sample_candle 0 1000 5 1 5) init) =
    [0] /\
  DataRow.eventFlags <$>
    df (on_candle utc
          (with_candle_flags diagnostic_bits (sample_candle 0 1000 5 1 5))
          init) = [81].
Proof.
  split; [|by split].
  by apply (same_but_diagnostic_toggle 0 diagnostic_bits).
Qed.

Lemma diagnostic_flags_do_not_steer_witness :
  update_graph
    (on_candle utc (with_candle_flags 89 (sample_candle 8 1000 5 1 5)) init) =
    update_graph (on_candle utc (sample_candle 8 1000 5 1 5) init) /\
  DataRow.with_eventFlags 0 <$>
    df (on_candle utc (with_candle_flags 89 (sample_candle 8 1000 5 1 5))
          init) =
  DataRow.with_eventFlags 0 <$>
    df (on_candle utc (sample_candle 8 1000 5 1 5) init).
Proof.
  destruct (diagnostic_flags_do_not_steer utc (sample_candle 8 1000 5 1 5)
              89 init) as (H1 & _ & _ & _ & H5).
  - by apply (same_but_diagnostic_toggle 8 diagnostic_bits).
  - split; [exact H1|exact H5].
Defined.

Lemma snapshot_end_takes_precedence_witness :
  update_graph (on_candle utc (sample_candle 12 1000 5 1 5) init) = true /\
  update_graph
    (on_candle utc (sample_candle 12 2000 5 1 5)
       (on_candle utc (sample_candle 8 1000 5 1 5) init)) = true.
Proof.
  split; apply snapshot_end_takes_precedence; reflexivity.
Defined.

(** ** Instances of the further properties *)

Lemma flag_printer_agrees_with_loop_witness :
  update_graph (on_candle utc (sample_candle 8 1000 5 1 5) init) = true /\
  df (on_candle utc (sample_candle 2 1000 5 1 5)
        (on_candle utc (sample_candle 0 1000 4 1 4) init)) =
    df (on_candle utc (sample_candle 0 1000 4 1 4) init).
Proof.
  split.
  - destruct (flag_printer_agrees_with_loop utc
                (sample_candle 8 1000 5 1 5) init) as (H & _).
    apply H. apply list_elem_of_singleton. reflexivity.
  - destruct (flag_printer_agrees_with_loop utc
                (sample_candle 2 1000 5 1 5)
                (on_candle utc (sample_candle 0 1000 4 1 4) init))
      as (_ & _ & _ & H).
    apply H. apply list_elem_of_singleton. reflexivity.
Defined.

Lemma decoder_succeeds_iff_witness :
  candle_to_dataframe utc (sample_candle 0 1000 5 1 5) =
    ([sample_row 0 1000 5 1 5], []) /\
  candle_to_dataframe utc (undecodable_candle 0 1000) =
    ([], [PrintStr "EXCEPT: candle_to_dataframe";
          PrintCandle (undecodable_candle 0 1000)]).
Proof.
  split.
  - destruct (decoder_succeeds_iff utc (sample_candle 0 1000 5 1 5))
      as (_ & H & _).
    apply H. reflexivity.
  - destruct (decoder_succeeds_iff utc (undecodable_candle 0 1000))
      as (_ & _ & H & _).
    apply H. reflexivity.
Defined.

Lemma decoded_row_carries_candle_witness :
  utc (Candle.time (sample_candle 4 1000 5 1 5)) =
    Some (DataRow.time (sample_row 4 1000 5 1 5)) /\
  py_float (Candle.volume (sample_candle 4 1000 5 1 5)) =
    Some (DataRow.volume (sample_row 4 1000 5 1 5)).
Proof.
  destruct (decoded_row_carries_candle utc (sample_candle 4 1000 5 1 5)
              (sample_row 4 1000 5 1 5))
    as (_ & Ht & (_ & _ & _ & _ & Hv & _) & _); [reflexivity|].
  split; [exact Ht|exact Hv].
Defined.

Lemma store_independent_of_arrival_order_witness :
  df (iterations utc
        [Received (sample_candle 0 1000 4 1 4); TimedOut;
         Received (sample_candle 0 2000 5 1 5)] init) =
  df (iterations utc
        [Received (sample_candle 0 2000 5 1 5);
         Received (sample_candle 0 1000 4 1 4); TimedOut] init).
Proof.
  apply store_independent_of_arrival_order.
  - symmetry.
    apply (Permutation_cons_append
             [Received (sample_candle 0 1000 4 1 4); TimedOut]).
  - refine (bool_decide_unpack _ _). vm_compute. exact I.
Defined.

Lemma store_is_fold_of_inserts_witness :
  store_map
    (df (iterations utc
           [Received (sample_candle 0 1000 4 1 4);
            Received (sample_candle 2 1000 6 1 6);
            Received (sample_candle 0 1000 5 1 5)] init)) =
  foldl (insert_row utc) ∅
    [Received (sample_candle 0 1000 4 1 4);
     Received (sample_candle 2 1000 6 1 6);
     Received (sample_candle 0 1000 5 1 5)].
Proof.
  destruct (store_is_fold_of_inserts utc
              [Received (sample_candle 0 1000 4 1 4);
               Received (sample_candle 2 1000 6 1 6);
               Received (sample_candle 0 1000 5 1 5)] init) as [_ H].
  - constructor.
  - apply H. reflexivity.
Defined.

Lemma store_keeps_its_keys_witness :
  1000000 ∈
  DataRow.time <$>
    df (get_candle_async utc
          [Poll (Received (sample_candle 2 1000 5 1 5));
           Poll (Received (sample_candle 0 2000 5 1 5)); Quit]
          (on_candle utc (sample_candle 0 1000 4 1 4) init)).
Proof.
  destruct (store_keeps_its_keys utc
              [Poll (Received (sample_candle 2 1000 5 1 5));
               Poll (Received (sample_candle 0 2000 5 1 5)); Quit]
              (on_candle utc (sample_candle 0 1000 4 1 4) init) 1000000)
    as [H _]; [|exact H].
  apply list_elem_of_singleton. reflexivity.
Defined.

Lemma polls_after_quit_are_ignored_witness :
  shown (get_candle_async utc
           [Poll (Received (sample_candle 8 1000 4 1 4)); Quit;
            Poll (Received (sample_candle 0 2000 5 1 5))] init) =
  shown (iterations utc [Received (sample_candle 8 1000 4 1 4)] init).
Proof.
  destruct (polls_after_quit_are_ignored utc
              [Poll (Received (sample_candle 8 1000 4 1 4)); Quit;
               Poll (Received (sample_candle 0 2000 5 1 5))] init) as [H _].
  apply H. reflexivity.
Defined.

Lemma drawn_frames_are_well_formed_witness :
  last (drawn (get_candle_async utc
                 [Poll (Received (sample_candle 8 1000 4 1 4)); Quit;
                  Poll TimedOut] init)) =
    Some (Series (vwap [sample_row 8 1000 4 1 4])) /\
  (exists frames : list frame,
     drawn (get_candle_async utc
              [Poll (Received (sample_candle 8 1000 4 1 4)); Quit;
               Poll TimedOut] init) = SampleFrame :: frames /\
     Forall published_frame frames) /\
  run (get_candle_async utc
         [Poll (Received (sample_candle 8 1000 4 1 4)); Quit; Poll TimedOut]
         init) = false.
Proof.
  destruct (drawn_frames_are_well_formed utc
              [Poll (Received (sample_candle 8 1000 4 1 4)); Quit;
               Poll TimedOut]) as (H1 & H2 & H3).
  split; [exact H1|]. split; [exact H2|]. apply H3. reflexivity.
Defined.

Lemma open_gate_redraws_on_every_candle_witness :
  drawn (on_candle utc (sample_candle 2 3000 5 1 5)
           (on_candle utc (sample_candle 8 1000 4 1 4) init)) =
  drawn (on_candle utc (sample_candle 8 1000 4 1 4) init) ++
  [Series (vwap [sample_row 8 1000 4 1 4])].
Proof.
  destruct (open_gate_redraws_on_every_candle utc
              (sample_candle 2 3000 5 1 5)
              (on_candle utc (sample_candle 8 1000 4 1 4) init))
    as (_ & H & _); [reflexivity|discriminate|reflexivity|].
  apply H. reflexivity.
Defined.

Lemma labels_show_latest_row_witness :
  exists (x : DataRow.t) (v : float),
    x ∈ df (on_candle utc (sample_candle 0 1000 4 1 4)
              (on_candle utc (sample_candle 8 2000 5 1 5) init)) /\
    (forall y,
       y ∈ df (on_candle utc (sample_candle 0 1000 4 1 4)
                 (on_candle utc (sample_candle 8 2000 5 1 5) init)) ->
       DataRow.time y <= DataRow.time x) /\
    last (vwap (df (on_candle utc (sample_candle 0 1000 4 1 4)
                      (on_candle utc (sample_candle 8 2000 5 1 5) init)))) =
      Some (x, v) /\
    label_quote (on_candle utc (sample_candle 0 1000 4 1 4)
                   (on_candle utc (sample_candle 8 2000 5 1 5) init)) =
      Some ("SPY", Some (DataRow.close x)) /\
    label_vwap (on_candle utc (sample_candle 0 1000 4 1 4)
                  (on_candle utc (sample_candle 8 2000 5 1 5) init)) =
      Some (Some v).
Proof.
  destruct (labels_show_latest_row utc (sample_candle 0 1000 4 1 4)
              (on_candle utc (sample_candle 8 2000 5 1 5) init)) as [H _].
  - change (ascending [sample_row 8 2000 5 1 5]). repeat constructor.
  - apply H. reflexivity.
Defined.

Lemma later_candle_keeps_earlier_indicator_witness :
  df (on_candle utc (sample_candle 0 2000 5 2 20)
        (on_candle utc (sample_candle 0 1000 4 1 10) init)) =
    df (on_candle utc (sample_candle 0 1000 4 1 10) init) ++
    [sample_row 0 2000 5 2 20] /\
  take (length (df (on_candle utc (sample_candle 0 1000 4 1 10) init)))
    (vwap (df (on_candle utc (sample_candle 0 2000 5 2 20)
                 (on_candle utc (sample_candle 0 1000 4 1 10) init)))) =
  vwap (df (on_candle utc (sample_candle 0 1000 4 1 10) init)).
Proof.
  destruct (later_candle_keeps_earlier_indicator utc) as [_ H].
  apply H.
  - change (ascending [sample_row 0 1000 4 1 10]). repeat constructor.
  - reflexivity.
  - change (Forall (fun x => DataRow.time x < 2000000)
              [sample_row 0 1000 4 1 10]).
    repeat constructor.
Defined.

Lemma nan_row_blanks_the_rest_witness :
  exists v : float,
    vwap [sample_row 0 1000 4 1 10; nan_volume_row 2000;
          sample_row 0 3000 5 2 20] !! 2%nat =
      Some (sample_row 0 3000 5 2 20, v) /\
    is_nan v = true.
Proof.
  destruct (nan_row_blanks_the_rest
              [sample_row 0 1000 4 1 10; nan_volume_row 2000;
               sample_row 0 3000 5 2 20] 1 2 (sample_row 0 3000 5 2 20))
    as [_ H]; [reflexivity|lia|reflexivity|].
  exact H.
Defined.

Lemma heartbeat_rotates_witness :
  beats 6 ticker0 =
    Some (mkTicker (rotate 5 animation0) (rotate 6 animation0)) /\
  rotate (0 + length animation0) animation0 = rotate 0 animation0.
Proof.
  destruct (heartbeat_rotates ticker0 5) as (H1 & _).
  - discriminate.
  - split; [exact H1|].
    destruct (heartbeat_rotates ticker0 0) as (_ & H2 & _);
      [discriminate|exact H2].
Defined.

Lemma display_interleaves_witness :
  exists t' : ticker,
    display utc
      [Beat; Core (Poll (Received (sample_candle 8 1000 4 1 4))); Beat;
       Core Quit; Beat; Core (Poll TimedOut)] init ticker0 =
      Some (get_candle_async utc
              [Poll (Received (sample_candle 8 1000 4 1 4)); Quit;
               Poll TimedOut] init, t') /\
    beats 2 ticker0 = Some t' /\
    animation t' <> [].
Proof.
  apply (display_interleaves utc
           [Beat; Core (Poll (Received (sample_candle 8 1000 4 1 4))); Beat;
            Core Quit; Beat; Core (Poll TimedOut)] init ticker0).
  - discriminate.
  - reflexivity.
Defined.

Lemma read_config_returns_entries_witness :
  read_config
    (Parsed (JDict (<["username" := JString "u"]>
                      (<["password" := JString "p"]>
                         {["host" := JString "h"]})))) =
    (Returned (JString "u") (JString "p"), []) /\
  read_config (Parsed (JDict (<["host" := JString "h"]> ∅))) =
    read_config (Parsed (JDict ∅)).
Proof.
  destruct (read_config_returns_entries {["host" := JString "h"]}
              (JString "u") (JString "p") (JString "h") "host")
    as (H1 & _); [discriminate..|].
  split; [exact H1|].
  destruct (read_config_returns_entries ∅
              (JString "u") (JString "p") (JString "h") "host")
    as (_ & H2 & _); [discriminate..|exact H2].
Defined.
